(** * MarkerWizard: fast variant screening ([fast_screen_variants.py])

    A shallow embedding of the screening pipeline: per-chromosome amplicon
    placement, the chromosome fan-out, the diagnostic-allele filter, the
    greedy spacing filter, the quality score and the orchestrating pipeline.

    Conventions of the embedding.
    - A pandas table is a [DataFrame]: its column index plus its rows.  The
      two identity columns [CHROM] and [POS] are typed fields of a [Row];
      every other column is a named cell holding a dynamically typed
      [value].
    - Python integers are [Z].  The [POS] column is an int64 column: the
      arithmetic of [fast_screen_single_chromosome] on the position array
      and its elements is 64-bit arithmetic, written out with [wrap64].
      Python floats are exact rationals [Q] together with the
      distinguished value [VNaN]; the rounding of IEEE arithmetic is not
      represented.
    - Exceptions are an explicit [Err] result, log records an explicit
      list written by the functions that call [logging]. *)

From Stdlib Require Import ZArith QArith List String Ascii Bool Lia.
From Stdlib Require Import Sorted Permutation OrderedTypeEx Lqa.
Import ListNotations.

Local Open Scope string_scope.
Local Open Scope list_scope.
Local Open Scope Z_scope.

(** ** Values, rows and tables *)

Inductive value : Type :=
| VStr (s : string)
| VInt (z : Z)
| VFloat (q : Q)
| VBool (b : bool)
| VNaN
| VNone.

Record Row : Type := mkRow {
  CHROM : string;
  POS : Z;
  cells : list (string * value)
}.

Record DataFrame : Type := mkDF {
  columns : list string;
  rows : list Row
}.

(** [pd.DataFrame()] *)
Definition empty_frame : DataFrame := mkDF [] [].

(** [len(df)] *)
Definition len (df : DataFrame) : nat := List.length (rows df).

(** Lookup of a named cell of a row, [None] when the row has no such key. *)
Fixpoint lookup (k : string) (cs : list (string * value)) : option value :=
  match cs with
  | [] => None
  | (k', v) :: rest => if String.eqb k k' then Some v else lookup k rest
  end.

(** Assignment to a named cell: overwrite in place, append when new. *)
Fixpoint assign (k : string) (v : value) (cs : list (string * value))
  : list (string * value) :=
  match cs with
  | [] => [(k, v)]
  | (k', v') :: rest =>
      if String.eqb k k' then (k', v) :: rest else (k', v') :: assign k v rest
  end.

Definition set_cell (k : string) (v : value) (r : Row) : Row :=
  mkRow (CHROM r) (POS r) (assign k v (cells r)).

(** [row.get(k, default)] *)
Definition row_get (r : Row) (k : string) (default : value) : value :=
  match lookup k (cells r) with
  | Some v => v
  | None => default
  end.

(** The cell of a row under a column of the table; a row that lacks the
    cell reads as missing. *)
Definition cell (r : Row) (k : string) : value := row_get r k VNaN.

Definition mem_string (k : string) (l : list string) : bool :=
  existsb (String.eqb k) l.

Definition add_column (k : string) (cols : list string) : list string :=
  if mem_string k cols then cols else cols ++ [k].

(** [df[k] = v] with a scalar [v]: the column is created when absent and
    every row receives the value. *)
Definition set_column (k : string) (v : value) (df : DataFrame) : DataFrame :=
  mkDF (add_column k (columns df)) (map (set_cell k v) (rows df)).

(** ** Single-chromosome screening ([fast_screen_single_chromosome]) *)

(** The bounds of numpy's [int64]. *)
Definition int64_min : Z := -9223372036854775808.
Definition int64_max : Z := 9223372036854775807.

(** The value an [int64] operation stores for the exact result [z]:
    [z] reduced modulo 2^64 into the range of [int64].  The Python
    integers that enter such an operation ([amplicon_size // 2],
    [primer_size], [shift]) are taken to fit int64 themselves. *)
Definition wrap64 (z : Z) : Z :=
  (z + 9223372036854775808) mod 18446744073709551616 - 9223372036854775808.

(** [range(lo, hi)] *)
Definition py_range (lo hi : Z) : list Z :=
  map (fun k => lo + Z.of_nat k) (seq 0 (Z.to_nat (hi - lo))).

(** [positions[positions != pos]] *)
Definition other_positions (positions : list Z) (pos : Z) : list Z :=
  filter (fun p => negb (p =? pos)) positions.

(** [np.any((other >= lo) & (other <= hi))] *)
Definition any_within (other : list Z) (lo hi : Z) : bool :=
  existsb (fun p => (p >=? lo) && (p <=? hi)) other.

(** What the loop body leaves in the four annotation columns of row [i]. *)
Record Placement : Type := mkPlacement {
  primer_compliant : bool;
  amplicon_start : option Z;
  amplicon_end : option Z;
  displacement : Z
}.

Section Screening.

Variables primer_size amplicon_size displacement_steps : Z.

Section OneVariant.

Variable pos : Z.
Variable other : list Z.

(** [amplicon_starts[i]] and [amplicon_ends[i]]: elements of the int64
    arrays [positions - (amplicon_size // 2)] and
    [positions + (amplicon_size // 2)]; [//] on the Python integer
    [amplicon_size] is floor division, as is [Z.div] for the positive
    divisor 2. *)
Definition amp_start : Z := wrap64 (pos - amplicon_size / 2).
Definition amp_end : Z := wrap64 (pos + amplicon_size / 2).

(** The test of lines 54-57 on the centred window; the primer bounds are
    sums of an int64 scalar and a Python integer, hence int64. *)
Definition centered_accepted : bool :=
  let f_primer_start := amp_start in
  let f_primer_end := wrap64 (amp_start + primer_size) in
  let r_primer_start := wrap64 (amp_end - primer_size) in
  let r_primer_end := amp_end in
  let f_conflicts := any_within other f_primer_start f_primer_end in
  let r_conflicts := any_within other r_primer_start r_primer_end in
  negb f_conflicts && negb r_conflicts.

(** The inner [for direction in [-1, 1]] loop of one [step]; [Some] is the
    [break] with the accepted window and its shift, the first branch is
    the [continue] of a window that lost the variant.  [shift] is a
    product of Python integers; the bounds of the window and of the
    primer regions are int64 scalars. *)
Fixpoint try_directions (directions : list Z) (step : Z)
  : option (Z * Z * Z) :=
  match directions with
  | [] => None
  | direction :: rest =>
      let shift := direction * step in
      let new_amp_start := wrap64 (amp_start + shift) in
      let new_amp_end := wrap64 (amp_end + shift) in
      let new_f_start := new_amp_start in
      let new_f_end := wrap64 (new_amp_start + primer_size) in
      let new_r_start := wrap64 (new_amp_end - primer_size) in
      let new_r_end := new_amp_end in
      if negb ((new_amp_start <=? pos) && (pos <=? new_amp_end))
      then try_directions rest step
      else
        let f_conflicts := any_within other new_f_start new_f_end in
        let r_conflicts := any_within other new_r_start new_r_end in
        if negb f_conflicts && negb r_conflicts
        then Some (new_amp_start, new_amp_end, shift)
        else try_directions rest step
  end.

(** The outer [for step in range(1, displacement_steps + 1)] loop with its
    [if found_placement: break]. *)
Fixpoint try_steps (steps : list Z) : option (Z * Z * Z) :=
  match steps with
  | [] => None
  | step :: rest =>
      match try_directions [-1; 1] step with
      | Some w => Some w
      | None => try_steps rest
      end
  end.

(** The body of the loop over the variants, once [other_positions] is
    known: the values it leaves in the annotation columns of its row. *)
Definition place_among : Placement :=
  if centered_accepted
  then mkPlacement true (Some amp_start) (Some amp_end) 0
  else
    match try_steps (py_range 1 (displacement_steps + 1)) with
    | Some (new_amp_start, new_amp_end, shift) =>
        mkPlacement true (Some new_amp_start) (Some new_amp_end) shift
    | None => mkPlacement false None None 0
    end.

End OneVariant.

(** Iteration [i] of the loop: [pos = positions[i]], the other positions
    are cut from the snapshot [positions] by value. *)
Definition place (positions : list Z) (pos : Z) : Placement :=
  place_among pos (other_positions positions pos).

Definition value_of_bound (b : option Z) : value :=
  match b with
  | Some z => VInt z
  | None => VNone
  end.

(** The four annotation cells of a row after its iteration.  The columns
    are initialised to [False], [None], [None], [0] for every row and the
    iteration overwrites the cells of its own row only, so the cells of
    row [i] are those of its placement. *)
Definition annotate (p : Placement) (r : Row) : Row :=
  set_cell "displacement" (VInt (displacement p))
    (set_cell "amplicon_end" (value_of_bound (amplicon_end p))
       (set_cell "amplicon_start" (value_of_bound (amplicon_start p))
          (set_cell "primer_compliant" (VBool (primer_compliant p)) r))).

Definition annotation_columns (cols : list string) : list string :=
  add_column "displacement"
    (add_column "amplicon_end"
       (add_column "amplicon_start" (add_column "primer_compliant" cols))).

Definition fast_screen_single_chromosome (chrom_data : DataFrame)
  : DataFrame :=
  let positions := map POS (rows chrom_data) in
  mkDF (annotation_columns (columns chrom_data))
    (map (fun r => annotate (place positions (POS r)) r) (rows chrom_data)).

End Screening.

(** ** Exceptions and log records *)

Inductive exn : Type :=
| KeyError (k : string)
| TypeError
| ValueError.

Inductive result (A : Type) : Type :=
| Ok (a : A)
| Err (e : exn).

Arguments Ok {A} a.
Arguments Err {A} e.

Inductive level : Type := INFO | WARNING | ERROR.

(** The messages of the module, their formatted numbers kept as data. *)
Inductive message : Type :=
| ProcessingSequentially
| ProcessingParallel (n_groups : nat) (n_workers : Z)
| TargetColumnNotFound (target_col : string)
| StartingScreening (n : nat)
| AfterQualityFiltering (n : nat)
| AfterDiagnosticFiltering (n : nat)
| AfterPrimerScreening (n : nat)
| NoPrimerCompliantVariants
| AfterSpacingFilter (n : nat)
| SelectedTop (max_snps : Z).

Definition log_record : Type := level * message.

(** A computation that writes log records and returns or raises. *)
Definition M (A : Type) : Type := list log_record * result A.

Definition ret {A : Type} (a : A) : M A := ([], Ok a).

Definition raise {A : Type} (e : exn) : M A := ([], Err e).

Definition bind {A B : Type} (m : M A) (f : A -> M B) : M B :=
  match m with
  | (l1, Ok a) => let (l2, r) := f a in (l1 ++ l2, r)
  | (l1, Err e) => (l1, Err e)
  end.

Definition logging (lv : level) (msg : message) : M unit :=
  ([(lv, msg)], Ok tt).

Definition lift {A : Type} (r : result A) : M A := ([], r).

Declare Scope screen_scope.
Delimit Scope screen_scope with screen.

Notation "x <- m ;; k" := (bind m (fun x => k))
  (at level 100, m at next level, right associativity) : screen_scope.
Notation "m ;;; k" := (bind m (fun _ => k))
  (at level 100, right associativity) : screen_scope.

Local Open Scope screen_scope.

Definition logs {A : Type} (m : M A) : list log_record := fst m.
Definition outcome {A : Type} (m : M A) : result A := snd m.

(** ** Sorting ([sort_values] and the group keys of [groupby]) *)

(** A stable insertion sort: [le x y] says that [x] may stand before [y];
    an element is put before the first element it may stand before, so
    elements that compare equal keep their original order. *)
Fixpoint insert_by {A : Type} (le : A -> A -> bool) (x : A) (l : list A)
  : list A :=
  match l with
  | [] => [x]
  | y :: rest => if le x y then x :: l else y :: insert_by le x rest
  end.

Definition sort_by {A : Type} (le : A -> A -> bool) (l : list A) : list A :=
  fold_right (insert_by le) [] l.

Definition sort_keys (ks : list string) : list string :=
  sort_by String.leb ks.

(** ** Chromosome fan-out ([fast_screen_variants_parallel]) *)

(** The group keys of [df.groupby('CHROM')]: the distinct chromosome
    labels in ascending order ([sort=True] is the default of pandas). *)
Definition group_keys (rs : list Row) : list string :=
  sort_keys (nodup string_dec (map CHROM rs)).

Definition in_chrom (c : string) (r : Row) : bool := String.eqb (CHROM r) c.

(** [[group for name, group in df.groupby('CHROM')]]: one table per key,
    each with the rows of that chromosome in their original order. *)
Definition chrom_groups (df : DataFrame) : list DataFrame :=
  map (fun c => mkDF (columns df) (filter (in_chrom c) (rows df)))
    (group_keys (rows df)).

Definition same_columns (a b : list string) : bool :=
  if list_eq_dec string_dec a b then true else false.

(** [pd.concat(results, ignore_index=True)]: the rows of the tables one
    after the other; the columns of the first table when all tables have
    the same columns, else the union of the columns in order of
    appearance; an empty list of tables is rejected. *)
Definition concat (results : list DataFrame) : result DataFrame :=
  match results with
  | [] => Err ValueError
  | first :: rest =>
      let cols :=
        if forallb (fun df => same_columns (columns df) (columns first)) rest
        then columns first
        else
          fold_left
            (fun acc df => fold_left (fun a k => add_column k a)
                             (columns df) acc) results [] in
      Ok (mkDF cols (flat_map rows results))
  end.

(** The worker count in use: [None] stands for the default, which reads
    the machine's [cpu_count]. *)
Definition resolve_workers (cpu_count : Z) (n_workers : option Z) : Z :=
  match n_workers with
  | None => Z.min (cpu_count - 1) 4
  | Some n => n
  end.

(** [mp.Pool] rejects a pool of fewer than one process; [pool.imap]
    returns the results in the order of its arguments. *)
Definition fast_screen_variants_parallel (cpu_count : Z) (df : DataFrame)
  (primer_size amplicon_size displacement_steps : Z) (n_workers : option Z)
  : M DataFrame :=
  let n_workers := resolve_workers cpu_count n_workers in
  let groups := chrom_groups df in
  if (List.length groups =? 1)%nat || (n_workers =? 1)
  then
    logging INFO ProcessingSequentially ;;;
    ret (fast_screen_single_chromosome primer_size amplicon_size
           displacement_steps df)
  else
    logging INFO (ProcessingParallel (List.length groups) n_workers) ;;;
    if n_workers <? 1 then raise ValueError
    else
      let results :=
        map (fast_screen_single_chromosome primer_size amplicon_size
               displacement_steps) groups in
      lift (concat results).

(** ** Diagnostic filter ([fast_filter_diagnostic_variants]) *)

(** [s.endswith(suffix)]: some tail of [s] is [suffix]. *)
Fixpoint ends_with (suffix s : string) : bool :=
  String.eqb s suffix ||
  match s with
  | EmptyString => false
  | String _ s' => ends_with suffix s'
  end.

(** The number a value stands for in arithmetic and comparison; booleans
    are the integers 0 and 1, as in Python. *)
Definition as_number (v : value) : option Q :=
  match v with
  | VInt z => Some (inject_Z z)
  | VFloat q => Some q
  | VBool b => Some (if b then 1%Q else 0%Q)
  | _ => None
  end.

(** Python's [==] on scalars. *)
Definition py_eq (a b : value) : bool :=
  match a, b with
  | VStr s, VStr t => String.eqb s t
  | VNone, VNone => true
  | _, _ =>
      match as_number a, as_number b with
      | Some x, Some y => Qeq_bool x y
      | _, _ => false
      end
  end.

(** [pd.isna] and [pd.notna] on a scalar. *)
Definition isna (v : value) : bool :=
  match v with
  | VNaN | VNone => true
  | _ => false
  end.

Definition notna (v : value) : bool := negb (isna v).

(** One element of the column comparisons [a != b] and [a == b]: a
    missing operand makes [!=] true and [==] false. *)
Definition pd_ne (a b : value) : bool := isna a || isna b || negb (py_eq a b).
Definition pd_eq (a b : value) : bool :=
  notna a && notna b && py_eq a b.

Definition allele_columns (df : DataFrame) : list string :=
  filter (ends_with "_allele") (columns df).

Definition target_column (target_parent : string) : string :=
  String.append target_parent "_allele".

(** [valid_target] for one row. *)
Definition valid_target (target_col : string) (r : Row) : bool :=
  pd_ne (cell r target_col) (VStr "N") && notna (cell r target_col).

(** [differs] for one row and one other column. *)
Definition differs (target_col other_col : string) (r : Row) : bool :=
  pd_ne (cell r target_col) (cell r other_col)
  && pd_ne (cell r other_col) (VStr "N")
  && notna (cell r other_col).

(** [is_diagnostic] for one row after the loop over [other_cols]. *)
Definition is_diagnostic (target_col : string) (other_cols : list string)
  (r : Row) : bool :=
  fold_left (fun acc other_col => acc && differs target_col other_col r)
    other_cols (valid_target target_col r).

Definition fast_filter_diagnostic_variants (df : DataFrame)
  (target_parent : string) : M DataFrame :=
  let allele_cols := allele_columns df in
  let target_col := target_column target_parent in
  if negb (mem_string target_col allele_cols)
  then
    logging ERROR (TargetColumnNotFound target_col) ;;;
    ret empty_frame
  else
    let other_cols :=
      filter (fun col => negb (String.eqb col target_col)) allele_cols in
    ret (mkDF (columns df)
           (filter (is_diagnostic target_col other_cols) (rows df))).

(** ** Spacing filter ([fast_apply_spacing_filter]) *)

(** [df.sort_values(['CHROM', 'POS'])]: chromosome first, position next. *)
Definition chrom_pos_le (r1 r2 : Row) : bool :=
  match String.compare (CHROM r1) (CHROM r2) with
  | Lt => true
  | Eq => POS r1 <=? POS r2
  | Gt => false
  end.

(** The dictionary [last_pos]. *)
Definition dict : Type := list (string * Z).

Fixpoint dict_get (k : string) (d : dict) : option Z :=
  match d with
  | [] => None
  | (k', v) :: rest => if String.eqb k k' then Some v else dict_get k rest
  end.

Definition dict_set (k : string) (v : Z) (d : dict) : dict := (k, v) :: d.

(** The sweep over the sorted rows; the rows kept are those whose entry of
    [selected_mask] is set. *)
Fixpoint spacing_sweep (min_spacing : Z) (last_pos : dict) (rs : list Row)
  : list Row :=
  match rs with
  | [] => []
  | row :: rest =>
      let chrom := CHROM row in
      let pos := POS row in
      let selected :=
        match dict_get chrom last_pos with
        | None => true
        | Some last => pos - last >=? min_spacing
        end in
      if selected
      then row :: spacing_sweep min_spacing (dict_set chrom pos last_pos) rest
      else spacing_sweep min_spacing last_pos rest
  end.

Definition fast_apply_spacing_filter (df : DataFrame) (min_spacing : Z)
  : DataFrame :=
  if (len df =? 0)%nat then df
  else
    let df_sorted := sort_by chrom_pos_le (rows df) in
    mkDF (columns df) (spacing_sweep min_spacing [] df_sorted).

(** ** Quality score ([fast_quality_score]) *)

(** The dictionary [reliability_values], looked up with a cell value. *)
Definition reliability_values (v : value) : option Z :=
  match v with
  | VStr s =>
      if String.eqb s "low" then Some 1
      else if String.eqb s "medium" then Some 2
      else if String.eqb s "high" then Some 3
      else None
  | _ => None
  end.

(** [row[k]] *)
Definition row_index (r : Row) (k : string) : result value :=
  match lookup k (cells r) with
  | Some v => Ok v
  | None => Err (KeyError k)
  end.

(** Truth value of a scalar in an [if]. *)
Definition truthy (v : value) : bool :=
  match v with
  | VStr s => negb (String.eqb s "")
  | VInt z => negb (z =? 0)
  | VFloat q => negb (Qeq_bool q 0)
  | VBool b => b
  | VNaN => true
  | VNone => false
  end.

(** [v / 100] *)
Definition div_100 (v : value) : result Q :=
  match as_number v with
  | Some q => Ok (q / 100)%Q
  | None => Err TypeError
  end.

(** [min(2, x)]: the first argument unless the second is smaller. *)
Definition min_2 (x : Q) : Q := if Qlt_le_dec x 2 then x else 2%Q.

Definition fast_quality_score (row : Row) (target_parent : string)
  : result Q :=
  match row_index row "overall_reliability" with
  | Err e => Err e
  | Ok rel =>
      let score :=
        match reliability_values rel with
        | Some n => inject_Z n
        | None => 1%Q
        end in
      let score :=
        if truthy (row_get row "complete_info" (VBool false))
        then (score + 2)%Q else score in
      let score :=
        if truthy (row_get row "has_f2_data" (VBool false))
        then (score + 1)%Q else score in
      let after_qual :=
        if notna (row_get row "QUAL" (VInt 0))
        then
          match row_index row "QUAL" with
          | Err e => Err e
          | Ok qual =>
              match div_100 qual with
              | Err e => Err e
              | Ok x => Ok (score + min_2 x)%Q
              end
          end
        else Ok score in
      match after_qual with
      | Err e => Err e
      | Ok score =>
          if truthy (row_get row "primer_compliant" (VBool false))
          then Ok (score + 1)%Q else Ok score
      end
  end.

(** ** The pipeline ([fast_comprehensive_screen]) *)

(** [reliability_values[min_reliability]] *)
Definition reliability_index (min_reliability : string) : result Z :=
  match reliability_values (VStr min_reliability) with
  | Some n => Ok n
  | None => Err (KeyError min_reliability)
  end.

(** [df[k]] for a column: the column has to exist. *)
Definition require_column (k : string) (df : DataFrame) : result unit :=
  if mem_string k (columns df) then Ok tt else Err (KeyError k).

(** One row of [quality_mask]. *)
Definition quality_mask (min_rel_value : Z) (r : Row) : bool :=
  pd_eq (cell r "complete_info") (VBool true)
  && match reliability_values (cell r "overall_reliability") with
     | Some n => n >=? min_rel_value
     | None => false
     end
  && pd_eq (cell r "has_f2_data") (VBool true).

(** Step 1: [filtered = df[quality_mask]]; the three columns are read in
    the order in which the mask names them. *)
Definition quality_filter (min_rel_value : Z) (df : DataFrame)
  : result DataFrame :=
  match require_column "complete_info" df with
  | Err e => Err e
  | Ok _ =>
      match require_column "overall_reliability" df with
      | Err e => Err e
      | Ok _ =>
          match require_column "has_f2_data" df with
          | Err e => Err e
          | Ok _ =>
              Ok (mkDF (columns df)
                    (filter (quality_mask min_rel_value) (rows df)))
          end
      end
  end.

(** [screened[screened['primer_compliant'] == True]] *)
Definition compliant_rows (screened : DataFrame) : DataFrame :=
  mkDF (columns screened)
    (filter (fun r => pd_eq (cell r "primer_compliant") (VBool true))
       (rows screened)).

(** The row handed to the function of [apply(..., axis=1)]: one cell per
    column of the table. *)
Definition series_of (cols : list string) (r : Row) : Row :=
  mkRow (CHROM r) (POS r) (map (fun k => (k, cell r k)) cols).

(** [spaced['quality_score'] = spaced.apply(...)]: the rows are scored in
    order and the first exception ends the computation. *)
Fixpoint score_rows (cols : list string) (target_parent : string)
  (rs : list Row) : result (list Row) :=
  match rs with
  | [] => Ok []
  | r :: rest =>
      match fast_quality_score (series_of cols r) target_parent with
      | Err e => Err e
      | Ok s =>
          match score_rows cols target_parent rest with
          | Err e => Err e
          | Ok rest' => Ok (set_cell "quality_score" (VFloat s) r :: rest')
          end
      end
  end.

(** Descending order on one sort key, missing values last. *)
Definition desc_compare (a b : option Q) : comparison :=
  match a, b with
  | Some x, Some y => Qcompare y x
  | Some _, None => Lt
  | None, Some _ => Gt
  | None, None => Eq
  end.

(** [sort_values(['quality_score', 'QUAL'], ascending=[False, False])] *)
Definition score_qual_le (r1 r2 : Row) : bool :=
  match desc_compare (as_number (cell r1 "quality_score"))
          (as_number (cell r2 "quality_score")) with
  | Lt => true
  | Eq =>
      match desc_compare (as_number (cell r1 "QUAL"))
              (as_number (cell r2 "QUAL")) with
      | Gt => false
      | _ => true
      end
  | Gt => false
  end.

(** [df.head(n)]: the first [n] rows, all but the last [-n] when [n] is
    negative. *)
Definition head (n : Z) (rs : list Row) : list Row :=
  if 0 <=? n then firstn (Z.to_nat n) rs
  else firstn (List.length rs - Z.to_nat (- n)) rs.

(** Step 5: scoring, ranking and truncation. *)
Definition rank_and_select (spaced : DataFrame) (target_parent : string)
  (max_snps : Z) : M DataFrame :=
  scored <- lift (score_rows (columns spaced) target_parent (rows spaced)) ;;
  let cols := add_column "quality_score" (columns spaced) in
  _ <- lift (require_column "QUAL" (mkDF cols scored)) ;;
  let final := sort_by score_qual_le scored in
  if Z.of_nat (List.length final) >? max_snps
  then
    logging INFO (SelectedTop max_snps) ;;;
    ret (mkDF cols (head max_snps final))
  else ret (mkDF cols final).

(** Steps 4 and 5: what the pipeline does with the variants it carries
    out of the primer screening. *)
Definition space_and_rank (primer_compliant : DataFrame)
  (target_parent : string) (min_spacing max_snps : Z) : M DataFrame :=
  let spaced := fast_apply_spacing_filter primer_compliant min_spacing in
  logging INFO (AfterSpacingFilter (len spaced)) ;;;
  if (len spaced =? 0)%nat then ret empty_frame
  else rank_and_select spaced target_parent max_snps.

Definition fast_comprehensive_screen (cpu_count : Z) (df : DataFrame)
  (target_parent min_reliability : string) (min_spacing max_snps : Z)
  (primer_size amplicon_size displacement_steps : Z) (n_workers : option Z)
  : M DataFrame :=
  logging INFO (StartingScreening (len df)) ;;;
  min_rel_value <- lift (reliability_index min_reliability) ;;
  filtered <- lift (quality_filter min_rel_value df) ;;
  logging INFO (AfterQualityFiltering (len filtered)) ;;;
  if (len filtered =? 0)%nat then ret empty_frame
  else
    diagnostic <- fast_filter_diagnostic_variants filtered target_parent ;;
    logging INFO (AfterDiagnosticFiltering (len diagnostic)) ;;;
    if (len diagnostic =? 0)%nat then ret empty_frame
    else
      screened <- fast_screen_variants_parallel cpu_count diagnostic
                    primer_size amplicon_size displacement_steps n_workers ;;
      let primer_compliant := compliant_rows screened in
      logging INFO (AfterPrimerScreening (len primer_compliant)) ;;;
      primer_compliant <-
        (if (len primer_compliant =? 0)%nat
         then
           logging WARNING NoPrimerCompliantVariants ;;;
           ret diagnostic
         else ret primer_compliant) ;;
      space_and_rank primer_compliant target_parent min_spacing max_snps.

(** [screen_variants_fast] *)
Definition screen_variants_fast := fast_comprehensive_screen.

(** ** The statements of the specification

    Definitions that follow the wording of the specification; the theorems
    below compare them with the functions above. *)

(** Self-exclusion by row identity: the positions of all rows but row [i]. *)
Definition other_positions_by_identity (positions : list Z) (i : nat)
  : list Z :=
  firstn i positions ++ skipn (S i) positions.


(** A position lies in one of the two primer regions of a window. *)
Definition in_primer_regions (primer_size new_start new_end p : Z) : bool :=
  ((new_start <=? p) && (p <=? new_start + primer_size))
  || ((new_end - primer_size <=? p) && (p <=? new_end)).

(** The window displaced by [shift] contains the variant and no other
    variant position lies in its primer regions. *)
Definition window_free (primer_size amplicon_size : Z) (positions : list Z)
  (pos shift : Z) : bool :=
  let new_start := pos - amplicon_size / 2 + shift in
  let new_end := pos + amplicon_size / 2 + shift in
  (new_start <=? pos) && (pos <=? new_end)
  && forallb
       (fun p =>
          (p =? pos)
          || negb (in_primer_regions primer_size new_start new_end p))
       positions.


(** The window displaced by [shift], with its shift. *)
Definition window_of_shift (amplicon_size pos shift : Z) : Z * Z * Z :=
  (pos - amplicon_size / 2 + shift, pos + amplicon_size / 2 + shift, shift).

(** How far from the position of a variant the bounds computed for it can
    lie: half a window, a primer and the largest shift. *)
Definition reach (primer_size amplicon_size displacement_steps : Z) : Z :=
  Z.abs (amplicon_size / 2) + Z.abs primer_size + Z.max 0 displacement_steps.

(** No bound computed for the variant at [pos] leaves the range of int64. *)
Definition no_overflow (primer_size amplicon_size displacement_steps pos : Z)
  : Prop :=
  int64_min <= pos - reach primer_size amplicon_size displacement_steps
  /\ pos + reach primer_size amplicon_size displacement_steps <= int64_max.


(** An allele that is a call: present and not the no-call sentinel. *)
Definition valid_call (v : value) : bool :=
  notna v && negb (py_eq v (VStr "N")).

Definition other_allele_columns (df : DataFrame) (target_col : string)
  : list string :=
  filter (fun col => negb (String.eqb col target_col)) (allele_columns df).

(** The retention rule as the specification words it: every other sample
    is a no-call or differs from the target. *)
Definition diagnostic_as_specified (df : DataFrame) (target_col : string)
  (r : Row) : bool :=
  valid_call (cell r target_col)
  && forallb
       (fun col =>
          negb (valid_call (cell r col))
          || negb (py_eq (cell r target_col) (cell r col)))
       (other_allele_columns df target_col).

(** The retention rule with every other sample called and different. *)
Definition called_and_distinct (df : DataFrame) (target_col : string)
  (r : Row) : bool :=
  valid_call (cell r target_col)
  && forallb
       (fun col =>
          valid_call (cell r col)
          && negb (py_eq (cell r target_col) (cell r col)))
       (other_allele_columns df target_col).

(** The rows of the table a computation returns, none when it raises. *)
Definition returned_rows (m : M DataFrame) : list Row :=
  match outcome m with
  | Ok df => rows df
  | Err _ => []
  end.

(** The chromosome labels in the order in which they are first met. *)
Fixpoint first_encountered (seen cs : list string) : list string :=
  match cs with
  | [] => []
  | c :: rest =>
      if mem_string c seen then first_encountered seen rest
      else c :: first_encountered (c :: seen) rest
  end.

(** Screening partition by partition, for a given order of the labels. *)
Definition screen_partitions (primer_size amplicon_size displacement_steps : Z)
  (df : DataFrame) (labels : list string) : DataFrame :=
  mkDF (annotation_columns (columns df))
    (flat_map
       (fun c =>
          rows (fast_screen_single_chromosome primer_size amplicon_size
                  displacement_steps
                  (mkDF (columns df) (filter (in_chrom c) (rows df)))))
       labels).

(** The greedy sweep over the position-sorted variants of one chromosome. *)
Fixpoint greedy_select (min_spacing : Z) (last_selected : option Z)
  (rs : list Row) : list Row :=
  match rs with
  | [] => []
  | r :: rest =>
      match last_selected with
      | None => r :: greedy_select min_spacing (Some (POS r)) rest
      | Some last =>
          if POS r - last >=? min_spacing
          then r :: greedy_select min_spacing (Some (POS r)) rest
          else greedy_select min_spacing last_selected rest
      end
  end.

Definition pos_le (r1 r2 : Row) : bool := POS r1 <=? POS r2.



(** The base of the score and its four bonuses. *)
Definition reliability_base (rel : value) : Q :=
  match reliability_values rel with
  | Some n => inject_Z n
  | None => 1%Q
  end.

Definition bonus (b : bool) (q : Q) : Q := if b then q else 0%Q.

(** The QUAL component as the specification words it: anything that is
    not a number counts as 0. *)
Definition qual_component_as_specified (qual : value) : Q :=
  match as_number qual with
  | Some q => min_2 (q / 100)%Q
  | None => min_2 (0 / 100)%Q
  end.

Definition score_as_specified (row : Row) : Q :=
  (reliability_base (row_get row "overall_reliability" VNaN)
   + bonus (truthy (row_get row "complete_info" (VBool false))) 2
   + bonus (truthy (row_get row "has_f2_data" (VBool false))) 1
   + qual_component_as_specified (row_get row "QUAL" VNaN)
   + bonus (truthy (row_get row "primer_compliant" (VBool false))) 1)%Q.

(** The QUAL component of a number or a missing value. *)
Definition qual_component (qual : value) : Q :=
  match as_number qual with
  | Some q => min_2 (q / 100)%Q
  | None => 0%Q
  end.

Definition score_formula (row : Row) : Q :=
  (reliability_base (row_get row "overall_reliability" VNaN)
   + bonus (truthy (row_get row "complete_info" (VBool false))) 2
   + bonus (truthy (row_get row "has_f2_data" (VBool false))) 1
   + qual_component (row_get row "QUAL" VNaN)
   + bonus (truthy (row_get row "primer_compliant" (VBool false))) 1)%Q.

Definition is_tier (v : value) : Prop :=
  v = VStr "low" \/ v = VStr "medium" \/ v = VStr "high".

(** A row whose reliability is one of the three tiers. *)
Definition tiered (r : Row) : Prop := is_tier (cell r "overall_reliability").

(** ** Tables of the examples *)

(** Two samples; the rows differ in the allele of the other sample. *)
Definition allele_table : DataFrame :=
  mkDF ["664c_allele"; "767_allele"]
    [mkRow "1" 100 [("664c_allele", VStr "A"); ("767_allele", VStr "N")];
     mkRow "1" 200 [("664c_allele", VStr "A"); ("767_allele", VStr "T")];
     mkRow "1" 300 [("664c_allele", VStr "A"); ("767_allele", VStr "A")];
     mkRow "1" 400 [("664c_allele", VNaN); ("767_allele", VStr "T")]].

(** A table without the allele column of sample 664c. *)
Definition no_target_table : DataFrame :=
  mkDF ["767_allele"] [mkRow "1" 100 [("767_allele", VStr "T")]].

(** Two chromosomes, the label met first being the greater one; the
    variant on chromosome 1 has a neighbour 140 bases away on
    chromosome 2. *)
Definition two_chrom_table : DataFrame :=
  mkDF [] [mkRow "2" 1140 []; mkRow "1" 1000 []].

Definition variant_cells (tier : string) (qual : value) (target other : string)
  : list (string * value) :=
  [("overall_reliability", VStr tier); ("complete_info", VBool true);
   ("has_f2_data", VBool true); ("QUAL", qual);
   ("664c_allele", VStr target); ("767_allele", VStr other)].

Definition variant_columns : list string :=
  ["overall_reliability"; "complete_info"; "has_f2_data"; "QUAL";
   "664c_allele"; "767_allele"].

(** Two diagnostic variants of one chromosome, each in a primer region of
    the other for every displacement up to 5. *)
Definition crowded_table : DataFrame :=
  mkDF variant_columns
    [mkRow "1" 1000 (variant_cells "high" (VInt 50) "A" "T");
     mkRow "1" 1140 (variant_cells "medium" (VFloat 300) "A" "T")].

(** Two diagnostic variants of one chromosome, far from each other. *)
Definition spread_table : DataFrame :=
  mkDF variant_columns
    [mkRow "1" 1000 (variant_cells "high" (VInt 50) "A" "T");
     mkRow "1" 5000 (variant_cells "medium" (VFloat 300) "A" "T")].

(** A table whose rows pass the quality gate and that has no allele
    column for sample 664c. *)
Definition no_target_variants : DataFrame :=
  mkDF ["overall_reliability"; "complete_info"; "has_f2_data"; "767_allele"]
    [mkRow "1" 1000
       [("overall_reliability", VStr "high"); ("complete_info", VBool true);
        ("has_f2_data", VBool true); ("767_allele", VStr "T")]].

(** A variant of the highest tier with all bonuses. *)
Definition scored_row : Row :=
  mkRow "1" 1000
    [("overall_reliability", VStr "high"); ("complete_info", VBool true);
     ("has_f2_data", VBool true); ("QUAL", VInt 150);
     ("primer_compliant", VBool true)].

(** A row whose QUAL cell holds text. *)
Definition text_qual_row : Row :=
  mkRow "1" 1000
    [("overall_reliability", VStr "high"); ("complete_info", VBool true);
     ("has_f2_data", VBool true); ("QUAL", VStr "PASS")].

(** A row whose reliability is missing. *)
Definition untiered_row : Row :=
  mkRow "1" 1000
    [("overall_reliability", VNaN); ("complete_info", VBool true);
     ("has_f2_data", VBool true); ("QUAL", VInt 150);
     ("primer_compliant", VBool true)].

(** * Rows and cells *)

Lemma lookup_assign (k k' : string) (v : value) (cs : list (string * value)) :
  lookup k (assign k' v cs)
  = if String.eqb k k' then Some v else lookup k cs.
Proof.
  induction cs as [|[k0 v0] cs IH]; cbn [assign lookup].
  - reflexivity.
  - destruct (String.eqb_spec k' k0) as [->|Hne]; cbn [lookup].
    + destruct (String.eqb k k0); reflexivity.
    + rewrite IH. destruct (String.eqb_spec k k0) as [->|Hne'].
      * destruct (String.eqb_spec k0 k'); [congruence|reflexivity].
      * reflexivity.
Qed.

Lemma row_get_set_cell (r : Row) (k k' : string) (v default : value) :
  row_get (set_cell k' v r) k default
  = if String.eqb k k' then v else row_get r k default.
Proof.
  unfold row_get, set_cell. cbn [cells]. rewrite lookup_assign.
  destruct (String.eqb k k'); reflexivity.
Qed.

Lemma row_index_set_cell (r : Row) (k k' : string) (v : value) :
  row_index (set_cell k' v r) k
  = if String.eqb k k' then Ok v else row_index r k.
Proof.
  unfold row_index, set_cell. cbn [cells]. rewrite lookup_assign.
  destruct (String.eqb k k'); reflexivity.
Qed.

Lemma annotate_cells (p : Placement) (r : Row) :
  cell (annotate p r) "primer_compliant" = VBool (primer_compliant p)
  /\ cell (annotate p r) "amplicon_start" = value_of_bound (amplicon_start p)
  /\ cell (annotate p r) "amplicon_end" = value_of_bound (amplicon_end p)
  /\ cell (annotate p r) "displacement" = VInt (displacement p).
Proof.
  unfold annotate, cell. rewrite !row_get_set_cell. repeat split.
Qed.

(** * Amplicon placement *)

Section PlacementFacts.

Variables primer_size amplicon_size displacement_steps : Z.
Variable positions : list Z.
Variable pos : Z.

Lemma any_within_other (lo hi : Z) :
  any_within (other_positions positions pos) lo hi
  = existsb (fun p => negb (p =? pos) && ((lo <=? p) && (p <=? hi))) positions.
Proof.
  unfold any_within, other_positions.
  induction positions as [|p ps IH]; simpl; [reflexivity|].
  destruct (p =? pos); simpl; [exact IH|].
  rewrite IH. f_equal. f_equal. apply Z.geb_leb.
Qed.

Lemma no_conflict_forallb (s e : Z) :
  negb (any_within (other_positions positions pos) s (s + primer_size))
  && negb (any_within (other_positions positions pos) (e - primer_size) e)
  = forallb
      (fun p => (p =? pos) || negb (in_primer_regions primer_size s e p))
      positions.
Proof.
  rewrite !any_within_other. unfold in_primer_regions.
  induction positions as [|p ps IH]; simpl; [reflexivity|].
  rewrite <- IH.
  destruct (p =? pos); simpl; [reflexivity|].
  destruct ((s <=? p) && (p <=? s + primer_size)); simpl; [reflexivity|].
  destruct ((e - primer_size <=? p) && (p <=? e)); simpl.
  - now rewrite andb_false_r.
  - reflexivity.
Qed.

(** The test of one displaced window is [window_free]. *)
Lemma displaced_window_free (shift : Z) :
  window_free primer_size amplicon_size positions pos shift
  = (pos - amplicon_size / 2 + shift <=? pos)
    && (pos <=? pos + amplicon_size / 2 + shift)
    && (negb (any_within (other_positions positions pos)
                (pos - amplicon_size / 2 + shift)
                (pos - amplicon_size / 2 + shift + primer_size))
        && negb (any_within (other_positions positions pos)
                   (pos + amplicon_size / 2 + shift - primer_size)
                   (pos + amplicon_size / 2 + shift))).
Proof.
  unfold window_free. cbv zeta. rewrite no_conflict_forallb. reflexivity.
Qed.

Lemma py_range_lower (lo hi x : Z) : In x (py_range lo hi) -> lo <= x.
Proof.
  unfold py_range. rewrite in_map_iff. intros [k [<- _]]. lia.
Qed.

(** A displaced window that is accepted has the shift of its direction
    and step, which is not 0 for a step of at least 1. *)
Lemma try_steps_shift_nonzero (steps : list Z) (w : Z * Z * Z) :
  (forall s, In s steps -> 1 <= s) ->
  try_steps primer_size amplicon_size pos (other_positions positions pos) steps
  = Some w ->
  snd w <> 0.
Proof using primer_size amplicon_size positions pos.
  assert (Hdirections : forall directions step,
             1 <= step ->
             (forall d, In d directions -> d <> 0) ->
             try_directions primer_size amplicon_size pos
               (other_positions positions pos) directions step = Some w ->
             snd w <> 0).
  { induction directions as [|d ds IH]; intros step Hstep Hds;
      cbn [try_directions]; [discriminate|]. cbv zeta.
    assert (Hrest : try_directions primer_size amplicon_size pos
                      (other_positions positions pos) ds step = Some w ->
                    snd w <> 0)
      by (apply IH; [assumption | intros d' Hd'; apply Hds; now right]).
    destruct (negb _); [exact Hrest|].
    destruct (negb _ && negb _); [|exact Hrest].
    intros [= <-]. cbn [snd].
    specialize (Hds d (or_introl eq_refl)). nia. }
  induction steps as [|s ss IH]; intros Hsteps; cbn [try_steps];
    [discriminate|].
  destruct (try_directions primer_size amplicon_size pos
              (other_positions positions pos) [-1; 1] s) as [w'|] eqn:Hs.
  - intros [= ->]. apply (Hdirections [-1; 1] s).
    + apply Hsteps. now left.
    + intros d [<-|[<-|[]]]; discriminate.
    + exact Hs.
  - apply IH. intros x Hx. apply Hsteps. now right.
Qed.

(** ** Within the range of int64 *)

Lemma wrap64_id (z : Z) : int64_min <= z <= int64_max -> wrap64 z = z.
Proof.
  unfold int64_min, int64_max, wrap64. intros H.
  rewrite Z.mod_small; lia.
Qed.

Hypothesis Hsafe :
  no_overflow primer_size amplicon_size displacement_steps pos.

Lemma amp_start_exact : amp_start amplicon_size pos = pos - amplicon_size / 2.
Proof.
  unfold amp_start. apply wrap64_id.
  unfold no_overflow, reach in Hsafe. lia.
Qed.

Lemma amp_end_exact : amp_end amplicon_size pos = pos + amplicon_size / 2.
Proof.
  unfold amp_end. apply wrap64_id.
  unfold no_overflow, reach in Hsafe. lia.
Qed.

(** Removes the reductions of the bounds that stay in range. *)
Ltac exact_bounds :=
  rewrite ?amp_start_exact, ?amp_end_exact;
  repeat match goal with
         | |- context [wrap64 ?z] =>
             rewrite (wrap64_id z)
               by (unfold no_overflow, reach in Hsafe; lia)
         end.

Lemma centered_accepted_exact :
  centered_accepted primer_size amplicon_size pos
    (other_positions positions pos)
  = negb (any_within (other_positions positions pos)
            (pos - amplicon_size / 2)
            (pos - amplicon_size / 2 + primer_size))
    && negb (any_within (other_positions positions pos)
               (pos + amplicon_size / 2 - primer_size)
               (pos + amplicon_size / 2)).
Proof.
  unfold centered_accepted. cbv zeta. exact_bounds. reflexivity.
Qed.


Lemma try_directions_find (directions : list Z) (step : Z) :
  (forall d, In d directions ->
             - Z.max 0 displacement_steps <= d * step
             <= Z.max 0 displacement_steps) ->
  try_directions primer_size amplicon_size pos
    (other_positions positions pos) directions step
  = option_map (window_of_shift amplicon_size pos)
      (find (window_free primer_size amplicon_size positions pos)
         (map (fun direction => direction * step) directions)).
Proof.
  induction directions as [|d ds IH]; intros Hreach; cbn [try_directions map];
    [reflexivity|].
  cbv zeta. cbn [find].
  pose proof (Hreach d (or_introl eq_refl)) as Hd.
  rewrite displaced_window_free, IH
    by (intros d' Hd'; apply Hreach; now right).
  exact_bounds.
  destruct ((pos - amplicon_size / 2 + d * step <=? pos)
            && (pos <=? pos + amplicon_size / 2 + d * step)); simpl;
    [|reflexivity].
  match goal with |- context [if ?c then _ else _] => destruct c end;
    reflexivity.
Qed.

Lemma try_steps_find (steps : list Z) :
  (forall s, In s steps -> 0 <= s <= Z.max 0 displacement_steps) ->
  try_steps primer_size amplicon_size pos (other_positions positions pos) steps
  = option_map (window_of_shift amplicon_size pos)
      (find (window_free primer_size amplicon_size positions pos)
         (flat_map (fun s => [- s; s]) steps)).
Proof.
  induction steps as [|s ss IH]; intros Hreach; [reflexivity|].
  pose proof (Hreach s (or_introl eq_refl)) as Hs.
  cbn [try_steps flat_map].
  rewrite try_directions_find, IH;
    [ | intros x Hx; apply Hreach; now right
      | intros d [<-|[<-|[]]]; lia ].
  cbn [map]. replace (-1 * s) with (- s) by lia.
  replace (1 * s) with s by lia.
  cbn [app find].
  destruct (window_free primer_size amplicon_size positions pos (- s));
    [reflexivity|].
  destruct (window_free primer_size amplicon_size positions pos s);
    reflexivity.
Qed.

Lemma py_range_steps (s : Z) :
  In s (py_range 1 (displacement_steps + 1)) ->
  0 <= s <= Z.max 0 displacement_steps.
Proof.
  unfold py_range. rewrite in_map_iff. intros [k [<- Hk]].
  apply in_seq in Hk. lia.
Qed.

Lemma try_steps_range_find :
  try_steps primer_size amplicon_size pos (other_positions positions pos)
    (py_range 1 (displacement_steps + 1))
  = option_map (window_of_shift amplicon_size pos)
      (find (window_free primer_size amplicon_size positions pos)
         (flat_map (fun s => [- s; s])
            (py_range 1 (displacement_steps + 1)))).
Proof. apply try_steps_find. apply py_range_steps. Qed.

End PlacementFacts.

(** The Boolean [window_free] read as a proposition: the displaced window
    contains the variant, and no position other than the variant's own
    lies in the forward or in the reverse primer region, bounds included. *)
Lemma window_free_iff (primer_size amplicon_size : Z) (positions : list Z)
  (pos shift : Z) :
  window_free primer_size amplicon_size positions pos shift = true <->
  let new_start := pos - amplicon_size / 2 + shift in
  let new_end := pos + amplicon_size / 2 + shift in
  new_start <= pos <= new_end /\
  forall p, In p positions -> p <> pos ->
    ~ (new_start <= p <= new_start + primer_size) /\
    ~ (new_end - primer_size <= p <= new_end).
Proof.
  unfold window_free, in_primer_regions. cbv zeta.
  rewrite !andb_true_iff, forallb_forall, !Z.leb_le.
  split.
  - intros [[H1 H2] Hall]. split; [lia|].
    intros p Hin Hne. specialize (Hall p Hin).
    apply orb_true_iff in Hall. destruct Hall as [Heq|Hfree].
    + apply Z.eqb_eq in Heq. contradiction.
    + apply negb_true_iff, orb_false_iff in Hfree.
      destruct Hfree as [Hf Hr].
      apply andb_false_iff in Hf. apply andb_false_iff in Hr.
      rewrite !Z.leb_gt in Hf, Hr. lia.
  - intros [Hin Hall]. split; [split; lia|].
    intros p Hp. destruct (Z.eqb_spec p pos) as [|Hne]; [reflexivity|].
    destruct (Hall p Hp Hne) as [Hf Hr]. simpl.
    apply negb_true_iff, orb_false_iff.
    split; apply andb_false_iff; rewrite !Z.leb_gt; lia.
Qed.



(** The search at work: a neighbour at 1132 sits in the reverse primer
    region of the centred window and of the windows shifted by -1, +1, -2,
    +2 and -3; the window shifted by +3 is the first free one. *)
Example place_displaced :
  place 20 300 5 [1000; 1132; 5000] 1000
  = mkPlacement true (Some 853) (Some 1153) 3.
Proof. reflexivity. Qed.

Example place_not_found :
  place 20 300 5 [1000; 1140] 1000 = mkPlacement false None None 0.
Proof. reflexivity. Qed.

(** At the upper end of int64 the bounds wrap around: the end of the
    centred window of the last position is negative and the window is
    accepted although it does not contain the variant; with a neighbour
    131 bases below, the centred window has a conflict and every
    displaced window fails the containment test, although the window
    shifted by -1 would be free in exact arithmetic. *)
Example place_wraps_around :
  place 20 300 5 [9223372036854775807] 9223372036854775807
  = mkPlacement true (Some 9223372036854775657)
      (Some (-9223372036854775659)) 0
  /\ place 20 300 5 [9223372036854775807; 9223372036854775677]
       9223372036854775807
     = mkPlacement false None None 0
  /\ window_free 20 300 [9223372036854775807; 9223372036854775677]
       9223372036854775807 (-1) = true.
Proof. repeat split; reflexivity. Qed.

(** C6, as stated, fails: a variant for which no window is found carries
    displacement 0 although its centred window was rejected. *)
Lemma displacement_zero_counterexample :
  ~ (displacement (place 20 300 5 [1000; 1140] 1000) = 0 <->
     centered_accepted 20 300 1000 (other_positions [1000; 1140] 1000) = true).
Proof.
  intros [H _]. specialize (H eq_refl). discriminate H.
Qed.

(** C6, amended. The displacement of a variant is 0 exactly when its
    centred window was accepted or no window was found at all; hence for a
    compliant variant it is 0 exactly when the centred window was
    accepted. *)
Theorem displacement_zero_iff
  (primer_size amplicon_size displacement_steps : Z) (positions : list Z)
  (pos : Z) :
  let p := place primer_size amplicon_size displacement_steps positions pos in
  let centered :=
    centered_accepted primer_size amplicon_size pos
      (other_positions positions pos) in
  (displacement p = 0 <-> centered = true \/ primer_compliant p = false)
  /\ (centered = true -> primer_compliant p = true)
  /\ (primer_compliant p = true -> (displacement p = 0 <-> centered = true)).
Proof.
  cbv zeta. unfold place, place_among.
  destruct (centered_accepted _ _ _ _) eqn:Hc; simpl.
  - repeat split; auto.
  - destruct (try_steps _ _ _ _ _) as [[[s e] sh]|] eqn:Hsteps; simpl.
    + apply try_steps_shift_nonzero in Hsteps;
        [|intros x Hx; now apply py_range_lower in Hx].
      simpl in Hsteps.
      repeat split; try tauto; try discriminate;
        intros; try contradiction; try discriminate.
      destruct H; discriminate.
    + repeat split; auto; try discriminate.
Qed.

Lemma displacement_zero_iff_witness :
  primer_compliant (place 20 300 5 [1000; 1132; 5000] 1000) = true
  /\ (displacement (place 20 300 5 [1000; 1132; 5000] 1000) = 0 <->
      centered_accepted 20 300 1000
        (other_positions [1000; 1132; 5000] 1000) = true).
Proof.
  destruct (displacement_zero_iff 20 300 5 [1000; 1132; 5000] 1000)
    as (_ & _ & Hcompliant).
  split; [reflexivity | apply Hcompliant; reflexivity].
Defined.

(** C4, as stated, fails: of two rows at position 1000 the second is cut
    from the conflict set of the first together with the first itself.
    With a 30-base window and 20-base primers the first row is accepted in
    place, while with the second row kept in the conflict set no window
    would be free. *)
Lemma self_exclusion_counterexample :
  let positions := [1000; 1000] in
  ~ In (nth 1 positions 0) (other_positions positions (nth 0 positions 0))
  /\ other_positions positions (nth 0 positions 0)
     <> other_positions_by_identity positions 0
  /\ primer_compliant (place 20 30 5 positions 1000) = true
  /\ primer_compliant
       (place_among 20 30 5 1000 (other_positions_by_identity positions 0))
     = false.
Proof.
  cbv zeta. repeat split.
  - simpl. tauto.
  - discriminate.
Qed.

(** C4, amended. The conflict set of a row holds the positions of the
    group that differ in value from the row's position, so every row at
    the same position is left out with it: the placement of a variant is
    the same with and without further rows at its own position. *)
Theorem self_exclusion_by_value
  (primer_size amplicon_size displacement_steps : Z)
  (before after : list Z) (pos : Z) :
  (forall p, In p (other_positions (before ++ pos :: after) pos) <->
             In p (before ++ after) /\ p <> pos)
  /\ place primer_size amplicon_size displacement_steps
       (before ++ pos :: after) pos
     = place primer_size amplicon_size displacement_steps
         (before ++ after) pos.
Proof.
  assert (Hcut : other_positions (before ++ pos :: after) pos
                 = other_positions (before ++ after) pos).
  { unfold other_positions. rewrite !filter_app. simpl.
    now rewrite Z.eqb_refl. }
  split.
  - intros p. rewrite Hcut. unfold other_positions.
    rewrite filter_In, negb_true_iff, Z.eqb_neq. reflexivity.
  - unfold place. now rewrite Hcut.
Qed.

(** * The stable insertion sort *)

Section SortFacts.

Context {A : Type}.
Variable le : A -> A -> bool.

Lemma insert_by_perm (x : A) (l : list A) :
  Permutation (x :: l) (insert_by le x l).
Proof.
  induction l as [|y l IH]; simpl; [reflexivity|].
  destruct (le x y); [reflexivity|].
  rewrite perm_swap. now apply perm_skip.
Qed.

Lemma sort_by_perm (l : list A) : Permutation l (sort_by le l).
Proof.
  induction l as [|x l IH]; simpl; [reflexivity|].
  etransitivity; [apply perm_skip, IH | apply insert_by_perm].
Qed.

Lemma sort_by_In (x : A) (l : list A) : In x (sort_by le l) <-> In x l.
Proof.
  split; apply Permutation_in;
    [symmetry|]; apply sort_by_perm.
Qed.

Lemma sort_by_length (l : list A) : List.length (sort_by le l) = List.length l.
Proof. symmetry. apply Permutation_length, sort_by_perm. Qed.

Hypothesis le_total : forall x y, le x y = false -> le y x = true.
Hypothesis le_trans :
  forall x y z, le x y = true -> le y z = true -> le x z = true.

Lemma insert_by_sorted (x : A) (l : list A) :
  StronglySorted (fun a b => le a b = true) l ->
  StronglySorted (fun a b => le a b = true) (insert_by le x l).
Proof.
  induction 1 as [|y l Hsorted IH Hall]; simpl.
  - constructor; constructor.
  - destruct (le x y) eqn:Hxy.
    + constructor; [now constructor|].
      constructor; [assumption|].
      eapply Forall_impl; [|exact Hall].
      intros z Hz. now apply le_trans with y.
    + constructor; [assumption|].
      apply (Permutation_Forall (insert_by_perm x l)).
      constructor; [now apply le_total | assumption].
Qed.

Lemma sort_by_sorted (l : list A) :
  StronglySorted (fun a b => le a b = true) (sort_by le l).
Proof.
  induction l as [|x l IH]; simpl; [constructor|].
  now apply insert_by_sorted.
Qed.

End SortFacts.

(** An element that may stand before every element of a list is put at
    its head. *)
Lemma insert_by_head {A : Type} (le : A -> A -> bool) (x : A) (l : list A) :
  Forall (fun z => le x z = true) l -> insert_by le x l = x :: l.
Proof.
  destruct 1 as [|y l Hy _]; simpl; [reflexivity|]. now rewrite Hy.
Qed.

(** * Spacing filter *)

Lemma compare_refl (s : string) : String.compare s s = Eq.
Proof. now apply String_as_OT.cmp_eq. Qed.

Lemma compare_lt_trans (a b c : string) :
  String.compare a b = Lt -> String.compare b c = Lt ->
  String.compare a c = Lt.
Proof.
  intros H1 H2. apply String_as_OT.cmp_lt.
  apply String_as_OT.cmp_lt in H1. apply String_as_OT.cmp_lt in H2.
  now apply String_as_OT.lt_trans with b.
Qed.

Lemma chrom_pos_le_total (x y : Row) :
  chrom_pos_le x y = false -> chrom_pos_le y x = true.
Proof.
  unfold chrom_pos_le. rewrite (String.compare_antisym (CHROM y)).
  destruct (String.compare (CHROM x) (CHROM y)); simpl;
    rewrite ?Z.leb_gt, ?Z.leb_le; try discriminate; auto; lia.
Qed.

Lemma chrom_pos_le_trans (x y z : Row) :
  chrom_pos_le x y = true -> chrom_pos_le y z = true ->
  chrom_pos_le x z = true.
Proof.
  unfold chrom_pos_le.
  destruct (String.compare (CHROM x) (CHROM y)) eqn:Hxy; try discriminate;
    destruct (String.compare (CHROM y) (CHROM z)) eqn:Hyz; try discriminate.
  - apply String_as_OT.cmp_eq in Hxy, Hyz. rewrite Hxy, Hyz, compare_refl.
    rewrite !Z.leb_le. lia.
  - apply String_as_OT.cmp_eq in Hxy. now rewrite Hxy, Hyz.
  - apply String_as_OT.cmp_eq in Hyz. now rewrite <- Hyz, Hxy.
  - now rewrite (compare_lt_trans _ _ _ Hxy Hyz).
Qed.

(** Within one chromosome the two-key order is the order of positions. *)
Lemma chrom_pos_le_same (c : string) (x y : Row) :
  in_chrom c x = true -> in_chrom c y = true ->
  chrom_pos_le x y = pos_le x y.
Proof.
  unfold in_chrom, chrom_pos_le, pos_le. rewrite !String.eqb_eq.
  intros -> ->. now rewrite compare_refl.
Qed.

Lemma filter_insert_chrom (c : string) (x : Row) (l : list Row) :
  StronglySorted (fun a b => chrom_pos_le a b = true) l ->
  filter (in_chrom c) (insert_by chrom_pos_le x l)
  = if in_chrom c x then insert_by pos_le x (filter (in_chrom c) l)
    else filter (in_chrom c) l.
Proof.
  induction 1 as [|y l Hsorted IH Hall]; cbn [insert_by].
  - simpl. destruct (in_chrom c x); reflexivity.
  - destruct (chrom_pos_le x y) eqn:Hxy.
    + remember (y :: l) as yl eqn:Hyl.
      cbn [filter]. destruct (in_chrom c x) eqn:Hx; [|reflexivity].
      symmetry. apply insert_by_head.
      apply Forall_forall. intros z Hz.
      apply filter_In in Hz. destruct Hz as [Hin Hcz].
      rewrite <- (chrom_pos_le_same c) by assumption.
      subst yl. destruct Hin as [<-|Hin]; [assumption|].
      apply chrom_pos_le_trans with y; [assumption|].
      rewrite Forall_forall in Hall. now apply Hall.
    + cbn [filter]. rewrite IH.
      destruct (in_chrom c y) eqn:Hy; [|reflexivity].
      destruct (in_chrom c x) eqn:Hx; [|reflexivity].
      cbn [insert_by].
      now rewrite <- (chrom_pos_le_same c x y Hx Hy), Hxy.
Qed.

(** Sorting by chromosome and position and then keeping one chromosome is
    sorting the rows of that chromosome by position. *)
Lemma filter_sort_chrom (c : string) (rs : list Row) :
  filter (in_chrom c) (sort_by chrom_pos_le rs)
  = sort_by pos_le (filter (in_chrom c) rs).
Proof.
  induction rs as [|r rs IH]; [reflexivity|].
  cbn [sort_by fold_right]. fold (sort_by chrom_pos_le rs).
  rewrite filter_insert_chrom
    by (apply sort_by_sorted;
        [apply chrom_pos_le_total | apply chrom_pos_le_trans]).
  rewrite IH. cbn [filter]. destruct (in_chrom c r); reflexivity.
Qed.

(** The sweep restricted to one chromosome is the greedy selection that
    starts from the entry of that chromosome in [last_pos]. *)
Lemma filter_sweep_chrom (min_spacing : Z) (c : string) (rs : list Row) :
  forall last_pos,
    filter (in_chrom c) (spacing_sweep min_spacing last_pos rs)
    = greedy_select min_spacing (dict_get c last_pos)
        (filter (in_chrom c) rs).
Proof.
  induction rs as [|r rs IH]; intros last_pos; [reflexivity|].
  cbn [spacing_sweep filter]. unfold in_chrom at 2.
  destruct (String.eqb_spec (CHROM r) c) as [Hc|Hc].
  - subst c. cbn [greedy_select].
    destruct (dict_get (CHROM r) last_pos) as [last|] eqn:Hget.
    + destruct (POS r - last >=? min_spacing).
      * cbn [filter]. unfold in_chrom at 1. rewrite String.eqb_refl.
        rewrite IH. unfold dict_set. cbn [dict_get].
        now rewrite String.eqb_refl.
      * rewrite IH. now rewrite Hget.
    + cbn [filter]. unfold in_chrom at 1. rewrite String.eqb_refl.
      rewrite IH. unfold dict_set. cbn [dict_get].
      now rewrite String.eqb_refl.
  - assert (Hset : forall p, dict_get c (dict_set (CHROM r) p last_pos)
                             = dict_get c last_pos).
    { intros p. unfold dict_set. cbn [dict_get].
      destruct (String.eqb_spec c (CHROM r)); [congruence|reflexivity]. }
    destruct (match dict_get (CHROM r) last_pos with
              | Some last => POS r - last >=? min_spacing
              | None => true
              end).
    + cbn [filter]. unfold in_chrom at 1.
      destruct (String.eqb_spec (CHROM r) c); [contradiction|].
      now rewrite IH, Hset.
    + apply IH.
Qed.





Lemma sort_by_sorted_id {A : Type} (le : A -> A -> bool) (l : list A) :
  StronglySorted (fun a b => le a b = true) l -> sort_by le l = l.
Proof.
  induction 1 as [|x l Hsorted IH Hall]; [reflexivity|].
  cbn [sort_by fold_right]. fold (sort_by le l). rewrite IH.
  now apply insert_by_head.
Qed.

Lemma pos_le_total (x y : Row) : pos_le x y = false -> pos_le y x = true.
Proof. unfold pos_le. rewrite Z.leb_gt, Z.leb_le. lia. Qed.

Lemma pos_le_trans (x y z : Row) :
  pos_le x y = true -> pos_le y z = true -> pos_le x z = true.
Proof. unfold pos_le. rewrite !Z.leb_le. lia. Qed.


(** The selection is greedy, not densest: 1060 is dropped because of
    1050, and 1050 itself lies too close to 100. *)
Example spacing_filter_example :
  map POS
    (rows
       (fast_apply_spacing_filter
          (mkDF []
             [mkRow "1" 3000 []; mkRow "1" 1060 []; mkRow "2" 1060 [];
              mkRow "1" 100 []; mkRow "1" 1100 []])
          1000))
  = [100; 1100; 3000; 1060].
Proof. reflexivity. Qed.

(** * Diagnostic filter *)

Lemma ends_with_append (prefix suffix : string) :
  ends_with suffix (String.append prefix suffix) = true.
Proof.
  induction prefix as [|a prefix IH]; cbn [String.append].
  - destruct suffix; cbn [ends_with]; now rewrite String.eqb_refl.
  - cbn [ends_with]. rewrite IH. apply orb_true_r.
Qed.

Lemma mem_string_filter (f : string -> bool) (k : string) (l : list string) :
  mem_string k (filter f l) = f k && mem_string k l.
Proof.
  unfold mem_string. induction l as [|x l IH]; simpl.
  - now rewrite andb_false_r.
  - destruct (String.eqb_spec k x) as [->|Hne]; simpl.
    + destruct (f x); simpl; [now rewrite String.eqb_refl | exact IH].
    + destruct (f x); simpl; [|exact IH].
      destruct (String.eqb_spec k x); [contradiction|exact IH].
Qed.

Lemma target_in_allele_columns (df : DataFrame) (target_parent : string) :
  mem_string (target_column target_parent) (allele_columns df)
  = mem_string (target_column target_parent) (columns df).
Proof.
  unfold allele_columns. rewrite mem_string_filter.
  unfold target_column. now rewrite ends_with_append.
Qed.

Ltac value_cases :=
  cbn [isna py_eq as_number negb orb andb];
  rewrite ?andb_true_r, ?andb_false_r, ?orb_false_r, ?orb_true_r;
  try reflexivity.

Lemma valid_target_call (target_col : string) (r : Row) :
  valid_target target_col r = valid_call (cell r target_col).
Proof.
  unfold valid_target, valid_call, pd_ne, notna.
  destruct (cell r target_col); value_cases.
Qed.

Lemma differs_call (target_col other_col : string) (r : Row) :
  differs target_col other_col r
  = valid_call (cell r other_col)
    && negb (py_eq (cell r target_col) (cell r other_col)).
Proof.
  unfold differs, valid_call, pd_ne, notna.
  destruct (cell r other_col) as [s|z|q|b| |];
    destruct (cell r target_col) as [s'|z'|q'|b'| |]; value_cases;
    try (destruct (String.eqb s "N"); value_cases);
    try apply andb_comm.
Qed.

Lemma fold_andb_forallb {A : Type} (f : A -> bool) (l : list A) :
  forall init,
    fold_left (fun acc x => acc && f x) l init = init && forallb f l.
Proof.
  induction l as [|x l IH]; intros init; simpl.
  - now rewrite andb_true_r.
  - rewrite IH. now rewrite andb_assoc.
Qed.

Lemma forallb_pointwise {A : Type} (f g : A -> bool) (l : list A) :
  (forall x, f x = g x) -> forallb f l = forallb g l.
Proof.
  intros Hfg. induction l as [|x l IH]; simpl; [reflexivity|].
  now rewrite Hfg, IH.
Qed.

Lemma is_diagnostic_called_and_distinct (df : DataFrame) (target_col : string)
  (r : Row) :
  is_diagnostic target_col (other_allele_columns df target_col) r
  = called_and_distinct df target_col r.
Proof.
  unfold is_diagnostic, called_and_distinct.
  rewrite fold_andb_forallb, valid_target_call. f_equal.
  apply forallb_pointwise. intros col. apply differs_call.
Qed.

(** C1, as stated, fails: the row at position 100 has a called target
    allele and a no-call in the only other sample; it satisfies the rule
    of the specification and is dropped by the filter. *)
Lemma diagnostic_filter_counterexample :
  let r :=
    mkRow "1" 100 [("664c_allele", VStr "A"); ("767_allele", VStr "N")] in
  ~ (In r (returned_rows (fast_filter_diagnostic_variants allele_table "664c"))
     <-> diagnostic_as_specified allele_table "664c_allele" r = true).
Proof.
  cbv zeta. intros [_ H]. specialize (H eq_refl).
  vm_compute in H. destruct H as [H|[]]. discriminate H.
Qed.

(** C1, amended. When the table has the target allele column, the filter
    raises nothing, logs nothing and returns, in their original order,
    exactly the rows in which the target allele is a call (present and not
    'N') and every other allele column holds a call that differs from the
    target allele; a no-call in another sample drops the row. *)
Theorem diagnostic_filter_called_and_distinct (df : DataFrame)
  (target_parent : string) :
  mem_string (target_column target_parent) (columns df) = true ->
  fast_filter_diagnostic_variants df target_parent
  = ([], Ok (mkDF (columns df)
               (filter (called_and_distinct df (target_column target_parent))
                  (rows df)))).
Proof.
  intros Hcol. unfold fast_filter_diagnostic_variants.
  rewrite target_in_allele_columns, Hcol. cbn [negb].
  unfold ret. do 3 f_equal.
  apply filter_ext. intros r.
  apply is_diagnostic_called_and_distinct.
Qed.

Lemma diagnostic_filter_called_and_distinct_witness :
  mem_string (target_column "664c") (columns allele_table) = true
  /\ fast_filter_diagnostic_variants allele_table "664c"
     = ([], Ok (mkDF (columns allele_table)
                  (filter (called_and_distinct allele_table
                             (target_column "664c"))
                     (rows allele_table)))).
Proof.
  split;
    [reflexivity
    | apply (diagnostic_filter_called_and_distinct allele_table "664c");
      reflexivity].
Defined.

(** On [allele_table] only the row at position 200 is kept. *)
Example diagnostic_filter_example :
  map POS (returned_rows (fast_filter_diagnostic_variants allele_table "664c"))
  = [200].
Proof. reflexivity. Qed.

(** The rule of [called_and_distinct] read as a proposition. *)
Lemma called_and_distinct_iff (df : DataFrame) (target_col : string)
  (r : Row) :
  called_and_distinct df target_col r = true <->
  valid_call (cell r target_col) = true /\
  forall col,
    In col (columns df) -> ends_with "_allele" col = true ->
    col <> target_col ->
    valid_call (cell r col) = true /\
    py_eq (cell r target_col) (cell r col) = false.
Proof.
  unfold called_and_distinct, other_allele_columns, allele_columns.
  rewrite andb_true_iff, forallb_forall.
  split; intros [Hvalid Hall]; (split; [assumption|]).
  - intros col Hin Hsuffix Hne.
    specialize (Hall col).
    rewrite !filter_In, negb_true_iff, String.eqb_neq in Hall.
    specialize (Hall (conj (conj Hin Hsuffix) Hne)).
    apply andb_true_iff in Hall. now rewrite negb_true_iff in Hall.
  - intros col Hcol.
    rewrite !filter_In, negb_true_iff, String.eqb_neq in Hcol.
    destruct Hcol as [[Hin Hsuffix] Hne].
    destruct (Hall col Hin Hsuffix Hne) as [H1 H2].
    now rewrite H1, H2.
Qed.

(** C2, as stated, fails: on a table without the target allele column the
    filter raises nothing; it returns the empty table. *)
Lemma missing_target_counterexample :
  ~ (exists e,
        outcome (fast_filter_diagnostic_variants no_target_table "664c")
        = Err e)
  /\ fast_filter_diagnostic_variants no_target_table "664c"
     = ([(ERROR, TargetColumnNotFound "664c_allele")], Ok empty_frame).
Proof.
  split; [|reflexivity].
  intros [e He]. discriminate He.
Qed.

(** * The pipeline *)

Lemma quality_filter_ok (min_rel_value : Z) (df filtered : DataFrame) :
  quality_filter min_rel_value df = Ok filtered ->
  filtered
  = mkDF (columns df) (filter (quality_mask min_rel_value) (rows df)).
Proof.
  unfold quality_filter.
  destruct (require_column "complete_info" df); [|discriminate].
  destruct (require_column "overall_reliability" df); [|discriminate].
  destruct (require_column "has_f2_data" df); [|discriminate].
  now intros [= <-].
Qed.

Lemma len_zero (df : DataFrame) : (len df =? 0)%nat = true <-> rows df = [].
Proof.
  unfold len. destruct (rows df); simpl; split; congruence.
Qed.

Lemma len_nonzero (df : DataFrame) :
  rows df <> [] -> (len df =? 0)%nat = false.
Proof.
  intros H. destruct (len df =? 0)%nat eqn:E; [|reflexivity].
  apply len_zero in E. contradiction.
Qed.

Lemma missing_target_filter (df : DataFrame) (target_parent : string) :
  mem_string (target_column target_parent) (columns df) = false ->
  fast_filter_diagnostic_variants df target_parent
  = ([(ERROR, TargetColumnNotFound (target_column target_parent))],
     Ok empty_frame).
Proof.
  intros Hcol. unfold fast_filter_diagnostic_variants.
  now rewrite target_in_allele_columns, Hcol.
Qed.

(** C2, amended. On a table without the target allele column the filter
    raises nothing: it writes one error-level log record and returns the
    empty table.  In the pipeline this empty table ends the run after the
    diagnostic stage with an empty result; screening, spacing and ranking
    are not reached. *)
Theorem missing_target_returns_empty (df : DataFrame)
  (target_parent : string) :
  mem_string (target_column target_parent) (columns df) = false ->
  fast_filter_diagnostic_variants df target_parent
  = ([(ERROR, TargetColumnNotFound (target_column target_parent))],
     Ok empty_frame)
  /\ forall (cpu_count : Z) (min_reliability : string)
       (min_spacing max_snps primer_size amplicon_size displacement_steps : Z)
       (n_workers : option Z) (min_rel_value : Z) (filtered : DataFrame),
      reliability_index min_reliability = Ok min_rel_value ->
      quality_filter min_rel_value df = Ok filtered ->
      rows filtered <> [] ->
      fast_comprehensive_screen cpu_count df target_parent min_reliability
        min_spacing max_snps primer_size amplicon_size displacement_steps
        n_workers
      = ([(INFO, StartingScreening (len df));
          (INFO, AfterQualityFiltering (len filtered));
          (ERROR, TargetColumnNotFound (target_column target_parent));
          (INFO, AfterDiagnosticFiltering 0)],
         Ok empty_frame).
Proof.
  intros Hcol. split; [now apply missing_target_filter|].
  intros cpu_count min_reliability min_spacing max_snps primer_size
    amplicon_size displacement_steps n_workers min_rel_value filtered
    Hrel Hfilter Hrows.
  unfold fast_comprehensive_screen. rewrite Hrel. cbn [lift bind logging].
  rewrite Hfilter. cbn [app].
  rewrite (len_nonzero _ Hrows).
  rewrite missing_target_filter.
  - reflexivity.
  - apply quality_filter_ok in Hfilter. now rewrite Hfilter.
Qed.

Lemma missing_target_returns_empty_witness :
  mem_string (target_column "664c") (columns no_target_variants) = false
  /\ fast_filter_diagnostic_variants no_target_variants "664c"
     = ([(ERROR, TargetColumnNotFound "664c_allele")], Ok empty_frame)
  /\ fast_comprehensive_screen 8 no_target_variants "664c" "medium" 2000 50
       20 300 5 None
     = ([(INFO, StartingScreening 1); (INFO, AfterQualityFiltering 1);
         (ERROR, TargetColumnNotFound "664c_allele");
         (INFO, AfterDiagnosticFiltering 0)],
        Ok empty_frame).
Proof.
  destruct (missing_target_returns_empty no_target_variants "664c" eq_refl)
    as [Hfilter Hrun].
  split; [reflexivity|]. split; [exact Hfilter|].
  apply (Hrun 8 "medium" 2000 50 20 300 5 None 2 no_target_variants).
  - reflexivity.
  - reflexivity.
  - discriminate.
Defined.

(** * Chromosome fan-out *)

Lemma group_keys_In (rs : list Row) (c : string) :
  In c (group_keys rs) <-> exists r, In r rs /\ CHROM r = c.
Proof.
  unfold group_keys, sort_keys.
  rewrite sort_by_In, nodup_In, in_map_iff.
  split; intros [r [H1 H2]]; exists r; tauto.
Qed.

Lemma filter_all {A : Type} (f : A -> bool) (l : list A) :
  (forall x, In x l -> f x = true) -> filter f l = l.
Proof.
  induction l as [|x l IH]; intros H; simpl; [reflexivity|].
  rewrite (H x (or_introl eq_refl)). f_equal.
  apply IH. intros y Hy. apply H. now right.
Qed.

(** With a single group, the group is the whole table. *)
Lemma single_group (rs : list Row) (c : string) :
  group_keys rs = [c] -> filter (in_chrom c) rs = rs.
Proof.
  intros Hkeys. apply filter_all. intros r Hr.
  assert (Hin : In (CHROM r) (group_keys rs))
    by (apply group_keys_In; now exists r).
  rewrite Hkeys in Hin. destruct Hin as [Hc|[]].
  unfold in_chrom. rewrite <- Hc. apply String.eqb_refl.
Qed.

Lemma group_keys_nonempty (rs : list Row) : rs <> [] -> group_keys rs <> [].
Proof.
  destruct rs as [|r rs]; [congruence|]. intros _ Hnil.
  assert (Hin : In (CHROM r) (group_keys (r :: rs)))
    by (apply group_keys_In; exists r; split; [now left|reflexivity]).
  now rewrite Hnil in Hin.
Qed.

Lemma flat_map_map {A B C : Type} (f : A -> B) (g : B -> list C)
  (l : list A) :
  flat_map g (map f l) = flat_map (fun x => g (f x)) l.
Proof.
  induction l as [|x l IH]; simpl; [reflexivity|]. now rewrite IH.
Qed.

Lemma same_columns_refl (cols : list string) : same_columns cols cols = true.
Proof.
  unfold same_columns. destruct (list_eq_dec string_dec cols cols);
    [reflexivity|contradiction].
Qed.

(** The concatenation of the screened groups. *)
Lemma concat_screened (primer_size amplicon_size displacement_steps : Z)
  (df : DataFrame) :
  rows df <> [] ->
  concat
    (map (fast_screen_single_chromosome primer_size amplicon_size
            displacement_steps) (chrom_groups df))
  = Ok (screen_partitions primer_size amplicon_size displacement_steps df
          (group_keys (rows df))).
Proof.
  intros Hrows. apply group_keys_nonempty in Hrows.
  unfold chrom_groups, screen_partitions.
  destruct (group_keys (rows df)) as [|c keys]; [contradiction|].
  cbn [map concat].
  match goal with
  | |- context [forallb ?f ?l] =>
      assert (Hsame : forallb f l = true)
  end.
  { apply forallb_forall. intros g Hg.
    apply in_map_iff in Hg. destruct Hg as [g0 [<- Hg0]].
    apply in_map_iff in Hg0. destruct Hg0 as [k [<- _]].
    apply same_columns_refl. }
  rewrite Hsame. f_equal. f_equal.
  cbn [flat_map]. f_equal. now rewrite !flat_map_map.
Qed.

(** C3, as stated, fails: the partitions are not concatenated in the order
    in which the chromosomes are first met.  In [two_chrom_table]
    chromosome 2 comes first; with two workers the result starts with
    chromosome 1. *)
Lemma parallel_order_counterexample :
  outcome (fast_screen_variants_parallel 8 two_chrom_table 20 300 5 (Some 2))
  <> Ok (screen_partitions 20 300 5 two_chrom_table
           (first_encountered [] (map CHROM (rows two_chrom_table))))
  /\ map CHROM
       (returned_rows
          (fast_screen_variants_parallel 8 two_chrom_table 20 300 5 (Some 2)))
     = ["1"; "2"]
  /\ first_encountered [] (map CHROM (rows two_chrom_table)) = ["2"; "1"].
Proof.
  split; [|split; reflexivity].
  intros H. vm_compute in H. discriminate H.
Qed.

(** C3, amended. For a non-empty table and a worker count of at least 2,
    or a table with a single chromosome, the function returns the
    concatenation of the single-chromosome screenings of the partitions,
    each variant being checked against the positions of its own partition
    only, the partitions taken in ascending order of the chromosome label.
    The result is then the same for every such worker count. *)
Theorem parallel_screen_by_partition (cpu_count : Z) (df : DataFrame)
  (primer_size amplicon_size displacement_steps : Z) (n_workers : option Z) :
  rows df <> [] ->
  2 <= resolve_workers cpu_count n_workers
  \/ List.length (group_keys (rows df)) = 1%nat ->
  outcome
    (fast_screen_variants_parallel cpu_count df primer_size amplicon_size
       displacement_steps n_workers)
  = Ok (screen_partitions primer_size amplicon_size displacement_steps df
          (group_keys (rows df))).
Proof.
  intros Hrows Hcase. unfold fast_screen_variants_parallel.
  assert (Hlen : List.length (chrom_groups df)
                 = List.length (group_keys (rows df)))
    by (unfold chrom_groups; apply length_map).
  destruct ((List.length (chrom_groups df) =? 1)%nat) eqn:Hone.
  - (* a single group: the table is screened as it is *)
    cbn [orb]. unfold outcome. cbn [logging ret bind snd].
    apply Nat.eqb_eq in Hone. rewrite Hlen in Hone.
    destruct (group_keys (rows df)) as [|c [|c' keys]] eqn:Hkeys;
      try discriminate Hone.
    unfold screen_partitions, fast_screen_single_chromosome.
    cbn [flat_map rows columns]. rewrite app_nil_r.
    now rewrite (single_group _ _ Hkeys).
  - destruct Hcase as [Hworkers|Hsingle];
      [|apply Nat.eqb_neq in Hone; rewrite Hlen in Hone; contradiction].
    cbn [orb].
    replace (resolve_workers cpu_count n_workers =? 1) with false
      by (symmetry; apply Z.eqb_neq; lia).
    replace (resolve_workers cpu_count n_workers <? 1) with false
      by (symmetry; apply Z.ltb_ge; lia).
    unfold outcome. cbn [logging bind lift snd].
    now rewrite concat_screened.
Qed.

Lemma parallel_screen_by_partition_witness :
  rows two_chrom_table <> []
  /\ (2 <= resolve_workers 8 (Some 3)
      \/ List.length (group_keys (rows two_chrom_table)) = 1%nat)
  /\ outcome (fast_screen_variants_parallel 8 two_chrom_table 20 300 5 (Some 3))
     = Ok (screen_partitions 20 300 5 two_chrom_table
             (group_keys (rows two_chrom_table))).
Proof.
  split; [discriminate|]. split; [left; simpl; lia|].
  apply (parallel_screen_by_partition 8 two_chrom_table 20 300 5 (Some 3)).
  - discriminate.
  - left. simpl. lia.
Defined.

(** With one worker and several chromosomes the table is screened as if it
    were one chromosome: the variant at 1000 on chromosome 1 is rejected
    because of the variant at 1140 on chromosome 2, while with two workers
    it is accepted in place. *)
Example single_worker_mixes_chromosomes :
  map (fun r => (CHROM r, POS r, cell r "primer_compliant"))
    (returned_rows
       (fast_screen_variants_parallel 8 two_chrom_table 20 300 5 (Some 1)))
  = [("2", 1140, VBool false); ("1", 1000, VBool false)]
  /\ map (fun r => (CHROM r, POS r, cell r "primer_compliant"))
       (returned_rows
          (fast_screen_variants_parallel 8 two_chrom_table 20 300 5 (Some 2)))
     = [("1", 1000, VBool true); ("2", 1140, VBool true)].
Proof. split; reflexivity. Qed.

(** * Quality score *)

Lemma row_index_get (r : Row) (k : string) (v default : value) :
  lookup k (cells r) = Some v ->
  row_index r k = Ok v /\ row_get r k default = v.
Proof.
  intros H. unfold row_index, row_get. now rewrite H.
Qed.

(** C9, as stated, fails: a QUAL cell that holds text is not counted as 0;
    the division raises [TypeError] and no score is returned. *)
Lemma quality_score_counterexample :
  ~ (exists s,
        fast_quality_score text_qual_row "664c" = Ok s
        /\ (s == score_as_specified text_qual_row)%Q)
  /\ fast_quality_score text_qual_row "664c" = Err TypeError.
Proof.
  split; [|reflexivity].
  intros [s [Hs _]]. discriminate Hs.
Qed.

(** The score of a row with a reliability cell and a QUAL cell that holds
    a number or a missing value. *)
Lemma fast_quality_score_sum (row : Row) (target_parent : string)
  (rel qual : value) :
  lookup "overall_reliability" (cells row) = Some rel ->
  lookup "QUAL" (cells row) = Some qual ->
  isna qual = true \/ as_number qual <> None ->
  exists s,
    fast_quality_score row target_parent = Ok s
    /\ (s == reliability_base rel
             + bonus (truthy (row_get row "complete_info" (VBool false))) 2
             + bonus (truthy (row_get row "has_f2_data" (VBool false))) 1
             + qual_component qual
             + bonus (truthy (row_get row "primer_compliant" (VBool false)))
                 1)%Q.
Proof.
  intros Hrel Hqual Hnum.
  destruct (row_index_get row _ rel VNaN Hrel) as [Hrel_index _].
  destruct (row_index_get row _ qual (VInt 0) Hqual) as [Hqual_index Hqual_get].
  unfold fast_quality_score, qual_component, reliability_base.
  rewrite Hrel_index, Hqual_get, Hqual_index.
  unfold div_100, notna, bonus.
  destruct (reliability_values rel) as [n|];
    destruct (truthy (row_get row "complete_info" (VBool false)));
    destruct (truthy (row_get row "has_f2_data" (VBool false)));
    destruct (truthy (row_get row "primer_compliant" (VBool false)));
    (destruct qual as [t|z|q|b| |];
     [ destruct Hnum as [Hna|Hn];
       [discriminate Hna | exfalso; now apply Hn]
     | | | | | ]);
    cbn [isna negb as_number];
    eexists; (split; [reflexivity|ring]).
Qed.

(** C9, amended. For every row that has a reliability cell and a QUAL
    cell holding a number or a missing value, the score is the sum of the
    reliability base (low 1, medium 2, high 3, anything else 1), 2 if
    [complete_info], 1 if [has_f2_data], [min(2, QUAL/100)] for a numeric
    QUAL and 0 for a missing one, and 1 if [primer_compliant]. *)
Theorem quality_score_formula (row : Row) (target_parent : string)
  (rel qual : value) :
  lookup "overall_reliability" (cells row) = Some rel ->
  lookup "QUAL" (cells row) = Some qual ->
  isna qual = true \/ as_number qual <> None ->
  exists s,
    fast_quality_score row target_parent = Ok s
    /\ (s == score_formula row)%Q.
Proof.
  intros Hrel Hqual Hnum. unfold score_formula.
  destruct (row_index_get row _ rel VNaN Hrel) as [_ ->].
  destruct (row_index_get row _ qual VNaN Hqual) as [_ ->].
  now apply fast_quality_score_sum.
Qed.

Lemma quality_score_formula_witness :
  lookup "overall_reliability" (cells scored_row) = Some (VStr "high")
  /\ lookup "QUAL" (cells scored_row) = Some (VInt 150)
  /\ (isna (VInt 150) = true \/ as_number (VInt 150) <> None)
  /\ exists s,
       fast_quality_score scored_row "664c" = Ok s
       /\ (s == score_formula scored_row)%Q.
Proof.
  split; [reflexivity|]. split; [reflexivity|].
  split; [right; discriminate|].
  apply (quality_score_formula scored_row "664c" (VStr "high") (VInt 150)).
  - reflexivity.
  - reflexivity.
  - right. discriminate.
Defined.

Example quality_score_example :
  fast_quality_score scored_row "664c" = Ok (3 + 2 + 1 + (150 / 100) + 1)%Q.
Proof. reflexivity. Qed.

(** * Rows outside the three tiers *)

Lemma reliability_values_tier (v : value) (n : Z) :
  reliability_values v = Some n -> is_tier v.
Proof.
  unfold reliability_values, is_tier. destruct v as [s| | | | |];
    try discriminate.
  destruct (String.eqb_spec s "low") as [->|_]; [now left|].
  destruct (String.eqb_spec s "medium") as [->|_]; [now right; left|].
  destruct (String.eqb_spec s "high") as [->|_]; [now right; right|].
  discriminate.
Qed.

Lemma reliability_values_untiered (v : value) :
  ~ is_tier v -> reliability_values v = None.
Proof.
  intros H. destruct (reliability_values v) as [n|] eqn:E; [|reflexivity].
  apply reliability_values_tier in E. contradiction.
Qed.

Lemma quality_mask_tiered (min_rel_value : Z) (r : Row) :
  quality_mask min_rel_value r = true -> tiered r.
Proof.
  unfold quality_mask, tiered. rewrite !andb_true_iff.
  intros [[_ H] _].
  destruct (reliability_values (cell r "overall_reliability")) as [n|] eqn:E;
    [|discriminate].
  now apply reliability_values_tier in E.
Qed.

Lemma bind_lift_ok {A B : Type} (a : A) (f : A -> M B) :
  bind (lift (Ok a)) f = f a.
Proof.
  unfold bind, lift. destruct (f a); reflexivity.
Qed.

Lemma bind_returned {A B : Type} (l : list log_record) (a : A)
  (f : A -> M B) :
  bind (l, Ok a) f = (l ++ logs (f a), outcome (f a)).
Proof.
  unfold bind, logs, outcome. destruct (f a); reflexivity.
Qed.

Lemma bind_logging {B : Type} (lv : level) (msg : message) (k : M B) :
  bind (logging lv msg) (fun _ => k) = ((lv, msg) :: logs k, outcome k).
Proof.
  unfold logging. now rewrite bind_returned.
Qed.

(** A computation that returns has run both halves of a [bind]. *)
Lemma bind_ok {A B : Type} (m : M A) (f : A -> M B) (b : B) :
  outcome (bind m f) = Ok b ->
  exists a, outcome m = Ok a /\ outcome (f a) = Ok b.
Proof.
  unfold outcome, bind. destruct m as [l1 [a|e]]; [|discriminate].
  destruct (f a) as [l2 r] eqn:Hf. cbn [snd]. intros ->.
  exists a. now rewrite Hf.
Qed.

Section Tiers.

(** A property of rows that survives the writing of other cells. *)
Variable keeps : Row -> Prop.
Hypothesis keeps_set_cell :
  forall k v r, k <> "overall_reliability" -> keeps r -> keeps (set_cell k v r).

Lemma annotate_keeps (p : Placement) (r : Row) :
  keeps r -> keeps (annotate p r).
Proof.
  intros H. unfold annotate.
  repeat (apply keeps_set_cell; [discriminate|]). exact H.
Qed.

Lemma screen_single_keeps (primer_size amplicon_size displacement_steps : Z)
  (df : DataFrame) :
  Forall keeps (rows df) ->
  Forall keeps
    (rows (fast_screen_single_chromosome primer_size amplicon_size
             displacement_steps df)).
Proof.
  intros H. unfold fast_screen_single_chromosome. cbn [rows].
  apply Forall_forall. intros r Hr. apply in_map_iff in Hr.
  destruct Hr as [r0 [<- Hr0]]. apply annotate_keeps.
  rewrite Forall_forall in H. now apply H.
Qed.

Lemma Forall_filter {A : Type} (P : A -> Prop) (f : A -> bool) (l : list A) :
  Forall P l -> Forall P (filter f l).
Proof.
  rewrite !Forall_forall. intros H x Hx. apply filter_In in Hx. now apply H.
Qed.

Lemma parallel_keeps (cpu_count : Z) (df screened : DataFrame)
  (primer_size amplicon_size displacement_steps : Z) (n_workers : option Z) :
  Forall keeps (rows df) ->
  outcome
    (fast_screen_variants_parallel cpu_count df primer_size amplicon_size
       displacement_steps n_workers) = Ok screened ->
  Forall keeps (rows screened).
Proof.
  intros Hdf. unfold fast_screen_variants_parallel.
  destruct ((List.length (chrom_groups df) =? 1)%nat
            || (resolve_workers cpu_count n_workers =? 1)).
  - unfold outcome. cbn [logging ret bind snd]. intros [= <-].
    now apply screen_single_keeps.
  - destruct (resolve_workers cpu_count n_workers <? 1).
    + unfold outcome. cbn [logging raise bind snd]. discriminate.
    + unfold outcome. cbn [logging lift bind snd].
      unfold concat.
      destruct (map _ (chrom_groups df)) as [|first rest] eqn:Hresults;
        [discriminate|].
      intros [= <-]. cbn [rows].
      change (rows first ++ flat_map rows rest)
        with (flat_map rows (first :: rest)).
      rewrite <- Hresults.
      apply Forall_forall. intros r Hr.
      apply in_flat_map in Hr. destruct Hr as [res [Hres Hr]].
      apply in_map_iff in Hres. destruct Hres as [g [<- Hg]].
      unfold chrom_groups in Hg. apply in_map_iff in Hg.
      destruct Hg as [c [<- _]].
      revert r Hr. apply Forall_forall. apply screen_single_keeps.
      cbn [rows]. now apply Forall_filter.
Qed.

Lemma diagnostic_keeps (df diagnostic : DataFrame) (target_parent : string) :
  Forall keeps (rows df) ->
  outcome (fast_filter_diagnostic_variants df target_parent) = Ok diagnostic ->
  Forall keeps (rows diagnostic).
Proof.
  intros Hdf. unfold fast_filter_diagnostic_variants.
  destruct (negb _); unfold outcome; cbn [logging ret bind snd];
    intros [= <-]; cbn [rows empty_frame].
  - constructor.
  - now apply Forall_filter.
Qed.

Lemma spacing_sweep_In (min_spacing : Z) (r : Row) (rs : list Row) :
  forall last_pos, In r (spacing_sweep min_spacing last_pos rs) -> In r rs.
Proof.
  induction rs as [|x rs IH]; intros last_pos; [exact (fun H => H)|].
  cbn [spacing_sweep].
  destruct (match dict_get (CHROM x) last_pos with
            | Some last => POS x - last >=? min_spacing
            | None => true
            end).
  - intros [H|H]; [now left | right; eapply IH; eassumption].
  - intros H. right. eapply IH; eassumption.
Qed.

Lemma spacing_keeps (df : DataFrame) (min_spacing : Z) :
  Forall keeps (rows df) ->
  Forall keeps (rows (fast_apply_spacing_filter df min_spacing)).
Proof.
  intros Hdf. unfold fast_apply_spacing_filter.
  destruct (len df =? 0)%nat; [assumption|]. cbn [rows].
  rewrite Forall_forall in *. intros r Hr.
  apply spacing_sweep_In, sort_by_In in Hr. now apply Hdf.
Qed.

Lemma score_rows_keeps (cols : list string) (target_parent : string)
  (rs : list Row) :
  forall scored,
    score_rows cols target_parent rs = Ok scored ->
    Forall keeps rs -> Forall keeps scored.
Proof.
  induction rs as [|r rs IH]; intros scored; cbn [score_rows].
  - intros [= <-] _. constructor.
  - destruct (fast_quality_score _ _) as [s|]; [|discriminate].
    destruct (score_rows cols target_parent rs) as [rest|]; [|discriminate].
    intros [= <-] Hall. inversion Hall as [|? ? Hr Hrs]; subst.
    constructor; [|now apply IH].
    apply keeps_set_cell; [discriminate|assumption].
Qed.

Lemma head_In (n : Z) (r : Row) (rs : list Row) :
  In r (head n rs) -> In r rs.
Proof.
  unfold head.
  destruct (0 <=? n); intros H;
    match type of H with
    | In _ (firstn ?k _) => rewrite <- (firstn_skipn k rs)
    end; apply in_or_app; now left.
Qed.

Lemma rank_and_select_keeps (spaced out : DataFrame) (target_parent : string)
  (max_snps : Z) :
  Forall keeps (rows spaced) ->
  outcome (rank_and_select spaced target_parent max_snps) = Ok out ->
  Forall keeps (rows out).
Proof.
  intros Hspaced Hout. unfold rank_and_select in Hout.
  apply bind_ok in Hout. destruct Hout as [scored [Hscored Hout]].
  apply bind_ok in Hout. destruct Hout as [_ [_ Hout]].
  unfold outcome, lift in Hscored. cbn [snd] in Hscored.
  pose proof (score_rows_keeps _ _ _ _ Hscored Hspaced) as Hkeeps.
  rewrite Forall_forall in Hkeeps.
  destruct (Z.of_nat _ >? max_snps);
    unfold outcome in Hout; cbn [logging ret bind snd] in Hout;
    injection Hout as <-; cbn [rows]; apply Forall_forall; intros r Hr.
  - apply head_In, sort_by_In in Hr. now apply Hkeeps.
  - apply sort_by_In in Hr. now apply Hkeeps.
Qed.

Lemma space_and_rank_keeps (primer_compliant out : DataFrame)
  (target_parent : string) (min_spacing max_snps : Z) :
  Forall keeps (rows primer_compliant) ->
  outcome (space_and_rank primer_compliant target_parent min_spacing max_snps)
  = Ok out ->
  Forall keeps (rows out).
Proof.
  intros Hpc Hout. unfold space_and_rank in Hout.
  apply bind_ok in Hout. destruct Hout as [_ [_ Hout]].
  destruct (len _ =? 0)%nat.
  - unfold outcome, ret in Hout. cbn [snd] in Hout.
    injection Hout as <-. constructor.
  - eapply rank_and_select_keeps; [|exact Hout].
    now apply spacing_keeps.
Qed.

(** Every row the pipeline returns descends from a row that passed the
    quality gate. *)
Lemma pipeline_keeps (cpu_count : Z) (df out : DataFrame)
  (target_parent min_reliability : string) (min_spacing max_snps : Z)
  (primer_size amplicon_size displacement_steps : Z) (n_workers : option Z) :
  (forall v r, quality_mask v r = true -> keeps r) ->
  outcome
    (fast_comprehensive_screen cpu_count df target_parent min_reliability
       min_spacing max_snps primer_size amplicon_size displacement_steps
       n_workers) = Ok out ->
  Forall keeps (rows out).
Proof.
  intros Hgate Hout. unfold fast_comprehensive_screen in Hout.
  apply bind_ok in Hout. destruct Hout as [_ [_ Hout]].
  apply bind_ok in Hout. destruct Hout as [v [_ Hout]].
  apply bind_ok in Hout. destruct Hout as [filtered [Hfiltered Hout]].
  apply bind_ok in Hout. destruct Hout as [_ [_ Hout]].
  assert (Hf : Forall keeps (rows filtered)).
  { unfold outcome, lift in Hfiltered. cbn [snd] in Hfiltered.
    apply quality_filter_ok in Hfiltered. subst filtered. cbn [rows].
    apply Forall_forall. intros r Hr. apply filter_In in Hr.
    now apply (Hgate v). }
  destruct (len filtered =? 0)%nat.
  { unfold outcome, ret in Hout. cbn [snd] in Hout.
    injection Hout as <-. constructor. }
  apply bind_ok in Hout. destruct Hout as [diagnostic [Hdiag Hout]].
  apply bind_ok in Hout. destruct Hout as [_ [_ Hout]].
  pose proof (diagnostic_keeps _ _ _ Hf Hdiag) as Hd.
  destruct (len diagnostic =? 0)%nat.
  { unfold outcome, ret in Hout. cbn [snd] in Hout.
    injection Hout as <-. constructor. }
  apply bind_ok in Hout. destruct Hout as [screened [Hscreened Hout]].
  apply bind_ok in Hout. destruct Hout as [_ [_ Hout]].
  apply bind_ok in Hout. destruct Hout as [carried [Hcarried Hout]].
  pose proof (parallel_keeps _ _ _ _ _ _ _ Hd Hscreened) as Hs.
  eapply space_and_rank_keeps; [|exact Hout].
  destruct (len (compliant_rows screened) =? 0)%nat;
    unfold outcome in Hcarried; cbn [logging ret bind snd] in Hcarried;
    injection Hcarried as <-; [assumption|].
  unfold compliant_rows. cbn [rows]. now apply Forall_filter.
Qed.

End Tiers.

Lemma tiered_set_cell (k : string) (v : value) (r : Row) :
  k <> "overall_reliability" -> tiered r -> tiered (set_cell k v r).
Proof.
  intros Hk. unfold tiered, cell. rewrite row_get_set_cell.
  destruct (String.eqb_spec "overall_reliability" k); [congruence|easy].
Qed.

(** C10. A row whose reliability cell holds anything but 'low', 'medium'
    or 'high' (a missing value included) is scored with base 1: its score
    is that of the same row with reliability 'low', and the scorer returns
    whenever the QUAL cell holds a number or a missing value.  The quality
    gate of the pipeline rejects such a row for every threshold, and every
    row that the pipeline returns has one of the three tiers. *)
Theorem untiered_reliability (row : Row) (target_parent : string)
  (rel : value) :
  lookup "overall_reliability" (cells row) = Some rel ->
  ~ is_tier rel ->
  reliability_base rel = 1%Q
  /\ fast_quality_score row target_parent
     = fast_quality_score (set_cell "overall_reliability" (VStr "low") row)
         target_parent
  /\ (forall qual,
         lookup "QUAL" (cells row) = Some qual ->
         isna qual = true \/ as_number qual <> None ->
         exists s,
           fast_quality_score row target_parent = Ok s
           /\ (s == 1
                    + bonus (truthy (row_get row "complete_info"
                                       (VBool false))) 2
                    + bonus (truthy (row_get row "has_f2_data" (VBool false))) 1
                    + qual_component qual
                    + bonus (truthy (row_get row "primer_compliant"
                                       (VBool false))) 1)%Q)
  /\ (forall min_rel_value, quality_mask min_rel_value row = false)
  /\ (forall (cpu_count : Z) (df out : DataFrame) (min_reliability : string)
        (min_spacing max_snps primer_size amplicon_size displacement_steps : Z)
        (n_workers : option Z) (r : Row),
         outcome
           (fast_comprehensive_screen cpu_count df target_parent
              min_reliability min_spacing max_snps primer_size amplicon_size
              displacement_steps n_workers) = Ok out ->
         In r (rows out) ->
         tiered r).
Proof.
  intros Hrel Huntiered.
  pose proof (reliability_values_untiered rel Huntiered) as Hnone.
  assert (Hbase : reliability_base rel = 1%Q)
    by (unfold reliability_base; now rewrite Hnone).
  split; [exact Hbase|]. split; [|split; [|split]].
  - unfold fast_quality_score.
    rewrite !row_index_set_cell, !row_get_set_cell.
    unfold row_index at 1. rewrite Hrel, Hnone.
    reflexivity.
  - intros qual Hqual Hnum.
    destruct (fast_quality_score_sum row target_parent rel qual Hrel Hqual Hnum)
      as [s [Hs Hsum]].
    exists s. split; [exact Hs|]. now rewrite Hsum, Hbase.
  - intros min_rel_value. unfold quality_mask, cell, row_get.
    rewrite Hrel, Hnone. now rewrite andb_false_r.
  - intros cpu_count df out min_reliability min_spacing max_snps primer_size
      amplicon_size displacement_steps n_workers r Hout Hr.
    revert r Hr. apply Forall_forall.
    eapply (pipeline_keeps tiered tiered_set_cell); [|exact Hout].
    intros v r. apply quality_mask_tiered.
Qed.

Lemma untiered_reliability_witness :
  lookup "overall_reliability" (cells untiered_row) = Some VNaN
  /\ ~ is_tier VNaN
  /\ fast_quality_score untiered_row "664c"
     = fast_quality_score
         (set_cell "overall_reliability" (VStr "low") untiered_row) "664c"
  /\ quality_mask 1 untiered_row = false.
Proof.
  assert (Huntiered : ~ is_tier VNaN)
    by (intros [H|[H|H]]; discriminate H).
  destruct (untiered_reliability untiered_row "664c" VNaN eq_refl Huntiered)
    as (_ & Hlow & _ & Hgate & _).
  split; [reflexivity|]. split; [exact Huntiered|].
  split; [exact Hlow | exact (Hgate 1)].
Defined.

(** The untiered row is scored with base 1, and a table that holds it next
    to [crowded_table]'s rows loses it at the gate even for the lowest
    threshold. *)
Example untiered_row_example :
  fast_quality_score untiered_row "664c" = Ok (1 + 2 + 1 + (150 / 100) + 1)%Q
  /\ map POS
       (returned_rows
          (fast_comprehensive_screen 8
             (mkDF variant_columns
                (mkRow "1" 90000
                   [("overall_reliability", VStr "unknown");
                    ("complete_info", VBool true);
                    ("has_f2_data", VBool true); ("QUAL", VInt 900);
                    ("664c_allele", VStr "A"); ("767_allele", VStr "T")]
                 :: rows crowded_table))
             "664c" "low" 2000 50 20 300 5 None))
     = [1000].
Proof. split; reflexivity. Qed.

(** * Short circuits and the fallback *)

Lemma spacing_nonempty (df : DataFrame) (min_spacing : Z) :
  rows df <> [] -> rows (fast_apply_spacing_filter df min_spacing) <> [].
Proof.
  intros Hrows. unfold fast_apply_spacing_filter.
  rewrite (len_nonzero _ Hrows). cbn [rows].
  destruct (sort_by chrom_pos_le (rows df)) as [|r rs] eqn:Hsorted.
  - apply (f_equal (@List.length Row)) in Hsorted.
    rewrite sort_by_length in Hsorted.
    destruct (rows df); [contradiction|discriminate].
  - cbn [spacing_sweep dict_get]. discriminate.
Qed.

Lemma score_rows_length (cols : list string) (target_parent : string)
  (rs : list Row) :
  forall scored,
    score_rows cols target_parent rs = Ok scored ->
    List.length scored = List.length rs.
Proof.
  induction rs as [|r rs IH]; intros scored; cbn [score_rows].
  - now intros [= <-].
  - destruct (fast_quality_score _ _) as [s|]; [|discriminate].
    destruct (score_rows cols target_parent rs) as [rest|]; [|discriminate].
    intros [= <-]. cbn [List.length]. f_equal. now apply IH.
Qed.

Lemma space_and_rank_nonempty (primer_compliant out : DataFrame)
  (target_parent : string) (min_spacing max_snps : Z) :
  rows primer_compliant <> [] ->
  1 <= max_snps ->
  outcome (space_and_rank primer_compliant target_parent min_spacing max_snps)
  = Ok out ->
  rows out <> [].
Proof.
  intros Hrows Hmax Hout. unfold space_and_rank in Hout.
  apply bind_ok in Hout. destruct Hout as [_ [_ Hout]].
  pose proof (spacing_nonempty _ min_spacing Hrows) as Hspaced.
  rewrite (len_nonzero _ Hspaced) in Hout.
  unfold rank_and_select in Hout.
  apply bind_ok in Hout. destruct Hout as [scored [Hscored Hout]].
  apply bind_ok in Hout. destruct Hout as [_ [_ Hout]].
  unfold outcome, lift in Hscored. cbn [snd] in Hscored.
  apply score_rows_length in Hscored.
  assert (Hfinal : sort_by score_qual_le scored <> []).
  { intros Hnil. apply (f_equal (@List.length Row)) in Hnil.
    rewrite sort_by_length, Hscored in Hnil.
    destruct (rows (fast_apply_spacing_filter primer_compliant min_spacing));
      [contradiction|discriminate]. }
  destruct (Z.of_nat _ >? max_snps);
    unfold outcome in Hout; cbn [logging ret bind snd] in Hout;
    injection Hout as <-; cbn [rows]; [|assumption].
  unfold head. replace (0 <=? max_snps) with true
    by (symmetry; apply Z.leb_le; lia).
  destruct (sort_by score_qual_le scored) as [|r rs]; [contradiction|].
  destruct (Z.to_nat max_snps) eqn:Hn; [lia|]. discriminate.
Qed.

(** C8. Once the threshold and the gate columns are read, the pipeline
    - returns the empty table right after the quality gate when no row
      passes it;
    - returns the empty table right after the diagnostic filter when that
      filter keeps no row;
    - when screening leaves no compliant row, writes a warning-level log
      record and hands the whole diagnostic table to the spacing stage,
      whose logs and outcome become those of the run;
    - returns the empty table after a spacing stage that keeps no row.
    The spacing stage keeps a row of every non-empty table, so after the
    fallback the run returns rows whenever it returns and [max_snps] is
    at least 1. *)
Theorem pipeline_short_circuits (cpu_count : Z) (df : DataFrame)
  (target_parent min_reliability : string) (min_spacing max_snps : Z)
  (primer_size amplicon_size displacement_steps : Z) (n_workers : option Z)
  (min_rel_value : Z) (filtered : DataFrame) :
  reliability_index min_reliability = Ok min_rel_value ->
  quality_filter min_rel_value df = Ok filtered ->
  let run :=
    fast_comprehensive_screen cpu_count df target_parent min_reliability
      min_spacing max_snps primer_size amplicon_size displacement_steps
      n_workers in
  let start :=
    [(INFO, StartingScreening (len df));
     (INFO, AfterQualityFiltering (len filtered))] in
  (rows filtered = [] -> run = (start, Ok empty_frame))
  /\ (forall dlog diagnostic,
         rows filtered <> [] ->
         fast_filter_diagnostic_variants filtered target_parent
         = (dlog, Ok diagnostic) ->
         (rows diagnostic = [] ->
          run = (start ++ dlog ++ [(INFO, AfterDiagnosticFiltering 0)],
                 Ok empty_frame))
         /\ (forall slog screened,
                rows diagnostic <> [] ->
                fast_screen_variants_parallel cpu_count diagnostic primer_size
                  amplicon_size displacement_steps n_workers
                = (slog, Ok screened) ->
                rows (compliant_rows screened) = [] ->
                let rest :=
                  space_and_rank diagnostic target_parent min_spacing
                    max_snps in
                run
                = (start ++ dlog
                   ++ [(INFO, AfterDiagnosticFiltering (len diagnostic))]
                   ++ slog
                   ++ [(INFO, AfterPrimerScreening 0);
                       (WARNING, NoPrimerCompliantVariants)]
                   ++ logs rest,
                   outcome rest)))
  /\ (forall primer_compliant,
         rows (fast_apply_spacing_filter primer_compliant min_spacing) = [] ->
         space_and_rank primer_compliant target_parent min_spacing max_snps
         = ([(INFO, AfterSpacingFilter 0)], Ok empty_frame))
  /\ (forall primer_compliant,
         rows primer_compliant <> [] ->
         rows (fast_apply_spacing_filter primer_compliant min_spacing) <> [])
  /\ (forall primer_compliant out,
         rows primer_compliant <> [] ->
         1 <= max_snps ->
         outcome
           (space_and_rank primer_compliant target_parent min_spacing max_snps)
         = Ok out ->
         rows out <> []).
Proof.
  intros Hrel Hfilter. cbv zeta.
  assert (Hrun :
            fast_comprehensive_screen cpu_count df target_parent
              min_reliability min_spacing max_snps primer_size amplicon_size
              displacement_steps n_workers
            = bind (logging INFO (StartingScreening (len df)))
                (fun _ =>
                   bind (logging INFO (AfterQualityFiltering (len filtered)))
                     (fun _ =>
                        if (len filtered =? 0)%nat then ret empty_frame
                        else
                          diagnostic <-
                            fast_filter_diagnostic_variants filtered
                              target_parent ;;
                          logging INFO
                            (AfterDiagnosticFiltering (len diagnostic)) ;;;
                          if (len diagnostic =? 0)%nat then ret empty_frame
                          else
                            screened <-
                              fast_screen_variants_parallel cpu_count
                                diagnostic primer_size amplicon_size
                                displacement_steps n_workers ;;
                            logging INFO
                              (AfterPrimerScreening
                                 (len (compliant_rows screened))) ;;;
                            primer_compliant <-
                              (if (len (compliant_rows screened) =? 0)%nat
                               then
                                 logging WARNING NoPrimerCompliantVariants ;;;
                                 ret diagnostic
                               else ret (compliant_rows screened)) ;;
                            space_and_rank primer_compliant target_parent
                              min_spacing max_snps))).
  { unfold fast_comprehensive_screen.
    rewrite Hrel, bind_lift_ok. cbv beta.
    rewrite Hfilter, bind_lift_ok. reflexivity. }
  rewrite Hrun. clear Hrun.
  split; [|split; [|split; [|split]]].
  - intros Hnone. apply len_zero in Hnone. rewrite Hnone. reflexivity.
  - intros dlog diagnostic Hsome Hdiag.
    rewrite (len_nonzero _ Hsome), Hdiag.
    rewrite !bind_logging, bind_returned. cbv beta.
    rewrite bind_logging.
    split.
    + intros Hnone. pose proof Hnone as Hlen. apply len_zero in Hlen.
      rewrite Hlen. unfold len. rewrite Hnone.
      cbn [logs outcome ret fst snd List.length app].
      reflexivity.
    + intros slog screened Hsome' Hscreened Hnone.
      rewrite (len_nonzero _ Hsome'), Hscreened.
      rewrite bind_returned. cbv beta.
      pose proof Hnone as Hlen. apply len_zero in Hlen. rewrite Hlen.
      replace (len (compliant_rows screened)) with 0%nat
        by (unfold len; now rewrite Hnone).
      rewrite !bind_logging.
      unfold ret. cbn [logs outcome fst snd app].
      rewrite bind_returned. reflexivity.
  - intros primer_compliant Hnone. unfold space_and_rank.
    pose proof Hnone as Hlen. apply len_zero in Hlen. rewrite Hlen.
    unfold len. now rewrite Hnone.
  - intros primer_compliant. apply spacing_nonempty.
  - intros primer_compliant out. apply space_and_rank_nonempty.
Qed.

Lemma pipeline_short_circuits_witness :
  reliability_index "medium" = Ok 2
  /\ quality_filter 2 crowded_table = Ok crowded_table
  /\ fast_comprehensive_screen 8 crowded_table "664c" "medium" 2000 50 20 300
       5 None
     = ([(INFO, StartingScreening 2); (INFO, AfterQualityFiltering 2);
         (INFO, AfterDiagnosticFiltering 2); (INFO, ProcessingSequentially);
         (INFO, AfterPrimerScreening 0);
         (WARNING, NoPrimerCompliantVariants)]
        ++ logs (space_and_rank crowded_table "664c" 2000 50),
        outcome (space_and_rank crowded_table "664c" 2000 50))
  /\ space_and_rank empty_frame "664c" 2000 50
     = ([(INFO, AfterSpacingFilter 0)], Ok empty_frame).
Proof.
  destruct (pipeline_short_circuits 8 crowded_table "664c" "medium" 2000 50
              20 300 5 None 2 crowded_table eq_refl eq_refl)
    as (_ & Hdiag & Hspacing & _).
  split; [reflexivity|]. split; [reflexivity|]. split.
  - destruct (Hdiag [] crowded_table) as [_ Hfallback];
      [discriminate | reflexivity |].
    apply (Hfallback [(INFO, ProcessingSequentially)]
             (fast_screen_single_chromosome 20 300 5 crowded_table));
      [discriminate | reflexivity | reflexivity].
  - apply Hspacing. reflexivity.
Defined.

(** Three runs: a table without the target allele column, an empty table,
    and the fallback, which here returns the variant at 1000. *)
Example pipeline_runs :
  fast_comprehensive_screen 8 no_target_variants "664c" "medium" 2000 50 20
    300 5 None
  = ([(INFO, StartingScreening 1); (INFO, AfterQualityFiltering 1);
      (ERROR, TargetColumnNotFound "664c_allele");
      (INFO, AfterDiagnosticFiltering 0)],
     Ok empty_frame)
  /\ fast_comprehensive_screen 8 (mkDF variant_columns []) "664c" "medium"
       2000 50 20 300 5 None
     = ([(INFO, StartingScreening 0); (INFO, AfterQualityFiltering 0)],
        Ok empty_frame)
  /\ logs (fast_comprehensive_screen 8 crowded_table "664c" "medium" 2000 50
             20 300 5 None)
     = [(INFO, StartingScreening 2); (INFO, AfterQualityFiltering 2);
        (INFO, AfterDiagnosticFiltering 2); (INFO, ProcessingSequentially);
        (INFO, AfterPrimerScreening 0); (WARNING, NoPrimerCompliantVariants);
        (INFO, AfterSpacingFilter 1)]
  /\ map POS
       (returned_rows
          (fast_comprehensive_screen 8 crowded_table "664c" "medium" 2000 50
             20 300 5 None))
     = [1000].
Proof. repeat split; reflexivity. Qed.

(** * Further properties of the placement *)

Lemma py_range_In (lo hi x : Z) : lo <= x < hi -> In x (py_range lo hi).
Proof.
  intros H. unfold py_range. apply in_map_iff.
  exists (Z.to_nat (x - lo)). split; [lia|].
  apply in_seq. lia.
Qed.

Lemma py_range_upper (lo hi x : Z) : In x (py_range lo hi) -> x < hi.
Proof.
  unfold py_range. rewrite in_map_iff. intros [k [<- Hk]].
  apply in_seq in Hk. lia.
Qed.

(** The two conflict tests of a window read as a proposition. *)
Lemma no_conflict_iff (primer_size : Z) (positions : list Z) (pos s e : Z) :
  negb (any_within (other_positions positions pos) s (s + primer_size))
  && negb (any_within (other_positions positions pos) (e - primer_size) e)
  = true <->
  forall q, In q positions -> q <> pos ->
    ~ (s <= q <= s + primer_size) /\ ~ (e - primer_size <= q <= e).
Proof.
  rewrite no_conflict_forallb, forallb_forall. unfold in_primer_regions.
  split.
  - intros Hall q Hin Hne. specialize (Hall q Hin).
    apply orb_true_iff in Hall. destruct Hall as [Heq|Hfree].
    + apply Z.eqb_eq in Heq. contradiction.
    + apply negb_true_iff, orb_false_iff in Hfree.
      destruct Hfree as [Hf Hr].
      apply andb_false_iff in Hf. apply andb_false_iff in Hr.
      rewrite !Z.leb_gt in Hf, Hr. lia.
  - intros Hall q Hin. destruct (Z.eqb_spec q pos) as [|Hne]; [reflexivity|].
    destruct (Hall q Hin Hne) as [Hf Hr]. simpl.
    apply negb_true_iff, orb_false_iff.
    split; apply andb_false_iff; rewrite !Z.leb_gt; lia.
Qed.

(** X1. For a position whose window, primer and shift bounds stay within
    the range of int64, a variant marked compliant has both bounds of its
    window set; the window is the centred one moved by the recorded
    displacement, the displacement does not exceed [displacement_steps]
    in size, a displaced window contains the variant, and no variant
    position other than the variant's own lies in either primer region of
    the window. *)
Theorem compliant_window_sound
  (primer_size amplicon_size displacement_steps : Z) (positions : list Z)
  (pos : Z) :
  no_overflow primer_size amplicon_size displacement_steps pos ->
  primer_compliant
    (place primer_size amplicon_size displacement_steps positions pos) = true ->
  exists s e shift,
    place primer_size amplicon_size displacement_steps positions pos
    = mkPlacement true (Some s) (Some e) shift
    /\ s = pos - amplicon_size / 2 + shift
    /\ e = pos + amplicon_size / 2 + shift
    /\ - Z.max 0 displacement_steps <= shift <= Z.max 0 displacement_steps
    /\ (shift <> 0 -> s <= pos <= e)
    /\ forall q, In q positions -> q <> pos ->
         ~ (s <= q <= s + primer_size) /\ ~ (e - primer_size <= q <= e).
Proof.
  intros Hsafe. unfold place, place_among.
  destruct (centered_accepted _ _ _ _) eqn:Hcentered.
  - intros _.
    exists (pos - amplicon_size / 2), (pos + amplicon_size / 2), 0.
    rewrite (amp_start_exact primer_size _ displacement_steps),
      (amp_end_exact primer_size _ displacement_steps) by assumption.
    rewrite (centered_accepted_exact _ _ displacement_steps) in Hcentered
      by assumption.
    split; [reflexivity|]. split; [lia|]. split; [lia|]. split; [lia|].
    split; [intros H; now contradiction H|].
    now apply no_conflict_iff.
  - rewrite try_steps_range_find by assumption.
    destruct (find _ _) as [shift|] eqn:Hfind; [|discriminate].
    intros _. apply find_some in Hfind. destruct Hfind as [Hin Hfree].
    apply in_flat_map in Hin. destruct Hin as [step [Hstep Hshift]].
    pose proof (py_range_lower _ _ _ Hstep) as Hlo.
    pose proof (py_range_upper _ _ _ Hstep) as Hhi.
    apply window_free_iff in Hfree. cbv zeta in Hfree.
    destruct Hfree as [Hcontains Hnone].
    exists (pos - amplicon_size / 2 + shift),
      (pos + amplicon_size / 2 + shift), shift.
    unfold window_of_shift. cbn [option_map].
    split; [reflexivity|]. split; [reflexivity|]. split; [reflexivity|].
    split; [simpl in Hshift; lia|]. split; [intros _; exact Hcontains|].
    exact Hnone.
Qed.

Lemma compliant_window_sound_witness :
  no_overflow 20 300 5 1000
  /\ primer_compliant (place 20 300 5 [1000; 1132; 5000] 1000) = true
  /\ exists s e shift,
       place 20 300 5 [1000; 1132; 5000] 1000
       = mkPlacement true (Some s) (Some e) shift
       /\ s = 1000 - 300 / 2 + shift
       /\ e = 1000 + 300 / 2 + shift
       /\ - Z.max 0 5 <= shift <= Z.max 0 5
       /\ (shift <> 0 -> s <= 1000 <= e)
       /\ forall q, In q [1000; 1132; 5000] -> q <> 1000 ->
            ~ (s <= q <= s + 20) /\ ~ (e - 20 <= q <= e).
Proof.
  assert (Hsafe : no_overflow 20 300 5 1000)
    by (unfold no_overflow, reach, int64_min, int64_max; simpl; lia).
  split; [exact Hsafe|]. split; [reflexivity|].
  apply (compliant_window_sound 20 300 5 [1000; 1132; 5000] 1000 Hsafe).
  reflexivity.
Defined.

(** X2. For a position whose window, primer and shift bounds stay within
    the range of int64, a variant marked not compliant has no free window
    within reach: the centred window has a conflict, and every window
    displaced by a non-zero shift of size at most [displacement_steps]
    either loses the variant or has another variant position in a primer
    region. *)
Theorem not_compliant_exhaustive
  (primer_size amplicon_size displacement_steps : Z) (positions : list Z)
  (pos : Z) :
  no_overflow primer_size amplicon_size displacement_steps pos ->
  primer_compliant
    (place primer_size amplicon_size displacement_steps positions pos)
  = false ->
  centered_accepted primer_size amplicon_size pos
    (other_positions positions pos) = false
  /\ ~ (forall q, In q positions -> q <> pos ->
          ~ (pos - amplicon_size / 2 <= q
             <= pos - amplicon_size / 2 + primer_size)
          /\ ~ (pos + amplicon_size / 2 - primer_size <= q
                <= pos + amplicon_size / 2))
  /\ forall shift,
       shift <> 0 ->
       - displacement_steps <= shift <= displacement_steps ->
       window_free primer_size amplicon_size positions pos shift = false.
Proof.
  intros Hsafe. unfold place, place_among.
  destruct (centered_accepted _ _ _ _) eqn:Hcentered; [discriminate|].
  rewrite try_steps_range_find by assumption.
  destruct (find _ _) as [w|] eqn:Hfind; [discriminate|].
  intros _. split; [reflexivity|]. split.
  - intros Hnone.
    rewrite (centered_accepted_exact _ _ displacement_steps) in Hcentered
      by assumption.
    apply no_conflict_iff in Hnone. congruence.
  - intros shift Hnz Hrange.
    apply (find_none _ _ Hfind).
    apply in_flat_map. exists (Z.abs shift). split.
    + apply py_range_In. lia.
    + simpl.
      destruct (Z.abs_spec shift) as [[_ ->]|[_ ->]]; [right; left|left];
        lia.
Qed.

Lemma not_compliant_exhaustive_witness :
  no_overflow 20 300 5 1000
  /\ primer_compliant (place 20 300 5 [1000; 1140] 1000) = false
  /\ centered_accepted 20 300 1000 (other_positions [1000; 1140] 1000) = false
  /\ window_free 20 300 [1000; 1140] 1000 (-4) = false.
Proof.
  assert (Hsafe : no_overflow 20 300 5 1000)
    by (unfold no_overflow, reach, int64_min, int64_max; simpl; lia).
  destruct (not_compliant_exhaustive 20 300 5 [1000; 1140] 1000 Hsafe eq_refl)
    as (Hcentered & _ & Hshifted).
  split; [exact Hsafe|]. split; [reflexivity|]. split; [exact Hcentered|].
  apply Hshifted; lia.
Defined.

Lemma existsb_same_elements {A : Type} (f : A -> bool) (l1 l2 : list A) :
  (forall x, In x l1 <-> In x l2) -> existsb f l1 = existsb f l2.
Proof.
  intros Hsame.
  assert (Hmove : forall a b,
             (forall x, In x a -> In x b) ->
             existsb f a = true -> existsb f b = true).
  { intros a b Hab Ha. apply existsb_exists in Ha.
    destruct Ha as [x [Hin Hx]]. apply existsb_exists.
    exists x. split; [now apply Hab|assumption]. }
  destruct (existsb f l1) eqn:H1; destruct (existsb f l2) eqn:H2;
    try reflexivity.
  - rewrite <- H2. symmetry. apply (Hmove l1 l2); [apply Hsame|assumption].
  - rewrite <- H1. apply (Hmove l2 l1); [apply Hsame|assumption].
Qed.

(** The loop body reads the other positions through [any_within] only. *)
Lemma place_among_ext (primer_size amplicon_size displacement_steps pos : Z)
  (other1 other2 : list Z) :
  (forall lo hi, any_within other1 lo hi = any_within other2 lo hi) ->
  place_among primer_size amplicon_size displacement_steps pos other1
  = place_among primer_size amplicon_size displacement_steps pos other2.
Proof.
  intros Hsame.
  assert (Hdirections : forall directions step,
             try_directions primer_size amplicon_size pos other1 directions step
             = try_directions primer_size amplicon_size pos other2 directions
                 step).
  { induction directions as [|d ds IH]; intros step; [reflexivity|].
    cbn [try_directions]. cbv zeta. now rewrite !Hsame, IH. }
  assert (Hsteps : forall steps,
             try_steps primer_size amplicon_size pos other1 steps
             = try_steps primer_size amplicon_size pos other2 steps).
  { induction steps as [|s ss IH]; [reflexivity|].
    cbn [try_steps]. now rewrite Hdirections, IH. }
  unfold place_among, centered_accepted. cbv zeta.
  now rewrite !Hsame, Hsteps.
Qed.

(** X3. The placement of a variant depends on the set of positions of its
    group only: the order of the rows and repeated positions make no
    difference. *)
Theorem place_same_positions
  (primer_size amplicon_size displacement_steps : Z)
  (positions1 positions2 : list Z) (pos : Z) :
  (forall q, In q positions1 <-> In q positions2) ->
  place primer_size amplicon_size displacement_steps positions1 pos
  = place primer_size amplicon_size displacement_steps positions2 pos.
Proof.
  intros Hsame. unfold place. apply place_among_ext.
  intros lo hi. unfold any_within. apply existsb_same_elements.
  intros q. unfold other_positions. rewrite !filter_In.
  now rewrite Hsame.
Qed.

Lemma place_same_positions_witness :
  (forall q, In q [1000; 1132; 5000] <-> In q [5000; 1132; 1000; 1132])
  /\ place 20 300 5 [1000; 1132; 5000] 1000
     = place 20 300 5 [5000; 1132; 1000; 1132] 1000.
Proof.
  assert (Hsame : forall q,
             In q [1000; 1132; 5000] <-> In q [5000; 1132; 1000; 1132])
    by (intros q; simpl; tauto).
  split; [exact Hsame|].
  apply (place_same_positions 20 300 5 _ _ 1000 Hsame).
Defined.

(** X4. A variant with no other variant position inside its centred window
    is accepted in place, provided the primer regions lie within the
    window ([primer_size] at most the width of the window) and the bounds
    of the window and of its primer regions stay within the range of
    int64. *)
Theorem isolated_variant_accepted
  (primer_size amplicon_size displacement_steps : Z) (positions : list Z)
  (pos : Z) :
  no_overflow primer_size amplicon_size 0 pos ->
  primer_size <= 2 * (amplicon_size / 2) ->
  (forall q, In q positions -> q <> pos ->
             q < pos - amplicon_size / 2 \/ pos + amplicon_size / 2 < q) ->
  place primer_size amplicon_size displacement_steps positions pos
  = mkPlacement true (Some (pos - amplicon_size / 2))
      (Some (pos + amplicon_size / 2)) 0.
Proof.
  intros Hsafe Hprimer Hisolated. unfold place, place_among.
  replace (centered_accepted primer_size amplicon_size pos
             (other_positions positions pos)) with true.
  - now rewrite (amp_start_exact primer_size _ 0),
      (amp_end_exact primer_size _ 0) by assumption.
  - symmetry. rewrite (centered_accepted_exact _ _ 0) by assumption.
    apply no_conflict_iff.
    intros q Hin Hne. specialize (Hisolated q Hin Hne). lia.
Qed.

Lemma isolated_variant_accepted_witness :
  no_overflow 20 300 0 5000
  /\ 20 <= 2 * (300 / 2)
  /\ (forall q, In q [1000; 1015; 5000] -> q <> 5000 ->
                q < 5000 - 300 / 2 \/ 5000 + 300 / 2 < q)
  /\ place 20 300 5 [1000; 1015; 5000] 5000
     = mkPlacement true (Some (5000 - 300 / 2)) (Some (5000 + 300 / 2)) 0.
Proof.
  assert (Hsafe : no_overflow 20 300 0 5000)
    by (unfold no_overflow, reach, int64_min, int64_max; simpl; lia).
  assert (Hisolated : forall q, In q [1000; 1015; 5000] -> q <> 5000 ->
                        q < 5000 - 300 / 2 \/ 5000 + 300 / 2 < q).
  { intros q [<-|[<-|[<-|[]]]] Hne; try (left; reflexivity).
    now contradiction Hne. }
  split; [exact Hsafe|]. split; [discriminate|]. split; [exact Hisolated|].
  apply (isolated_variant_accepted 20 300 5);
    [exact Hsafe | discriminate | exact Hisolated].
Defined.

(** * Further properties of the screening of a table *)

Lemma assign_present (k : string) (v : value) (cs : list (string * value)) :
  lookup k cs = Some v -> assign k v cs = cs.
Proof.
  induction cs as [|[k0 v0] cs IH]; cbn [lookup assign]; [discriminate|].
  destruct (String.eqb k k0); [now intros [= ->]|].
  intros H. now rewrite IH.
Qed.

Lemma set_cell_present (k : string) (v : value) (r : Row) :
  lookup k (cells r) = Some v -> set_cell k v r = r.
Proof.
  intros H. unfold set_cell. rewrite (assign_present _ _ _ H).
  now destruct r.
Qed.

Lemma annotate_idempotent (p : Placement) (r : Row) :
  annotate p (annotate p r) = annotate p r.
Proof.
  unfold annotate at 1.
  rewrite (set_cell_present "primer_compliant");
    [rewrite (set_cell_present "amplicon_start");
     [rewrite (set_cell_present "amplicon_end");
      [rewrite (set_cell_present "displacement"); [reflexivity|] |] |] |];
    unfold annotate, set_cell; cbn [cells]; rewrite !lookup_assign;
    reflexivity.
Qed.

Lemma add_column_present (k : string) (cols : list string) :
  mem_string k cols = true -> add_column k cols = cols.
Proof. intros H. unfold add_column. now rewrite H. Qed.

Lemma mem_string_add_column (k k' : string) (cols : list string) :
  mem_string k (add_column k' cols)
  = String.eqb k k' || mem_string k cols.
Proof.
  unfold add_column. destruct (mem_string k' cols) eqn:Hmem.
  - destruct (String.eqb_spec k k') as [->|_]; [now rewrite Hmem|reflexivity].
  - unfold mem_string. rewrite existsb_app. simpl.
    rewrite orb_false_r. apply orb_comm.
Qed.

Lemma annotation_columns_idempotent (cols : list string) :
  annotation_columns (annotation_columns cols) = annotation_columns cols.
Proof.
  unfold annotation_columns at 1.
  rewrite (add_column_present "primer_compliant");
    [rewrite (add_column_present "amplicon_start");
     [rewrite (add_column_present "amplicon_end");
      [rewrite (add_column_present "displacement"); [reflexivity|] |] |] |];
    unfold annotation_columns; rewrite !mem_string_add_column;
    reflexivity.
Qed.

Lemma screen_positions (primer_size amplicon_size displacement_steps : Z)
  (df : DataFrame) :
  map POS
    (rows (fast_screen_single_chromosome primer_size amplicon_size
             displacement_steps df))
  = map POS (rows df).
Proof.
  unfold fast_screen_single_chromosome. cbn [rows].
  rewrite map_map. apply map_ext. intros r. reflexivity.
Qed.

(** X5. Screening an already screened table changes nothing: the
    annotation columns are overwritten with the values they hold. *)
Theorem screen_idempotent (primer_size amplicon_size displacement_steps : Z)
  (df : DataFrame) :
  fast_screen_single_chromosome primer_size amplicon_size displacement_steps
    (fast_screen_single_chromosome primer_size amplicon_size
       displacement_steps df)
  = fast_screen_single_chromosome primer_size amplicon_size
      displacement_steps df.
Proof.
  unfold fast_screen_single_chromosome at 1.
  rewrite screen_positions.
  unfold fast_screen_single_chromosome. cbn [rows columns].
  rewrite annotation_columns_idempotent. f_equal.
  rewrite map_map. apply map_ext. intros r.
  change (POS (annotate _ r)) with (POS r).
  apply annotate_idempotent.
Qed.

(** X6. Screening keeps the rows of the table in number and order, with
    their chromosome, their position and every cell other than the four
    annotation cells; the four annotation cells hold the placement. *)
Theorem screen_preserves_rows
  (primer_size amplicon_size displacement_steps : Z) (df : DataFrame) :
  Forall2
    (fun r r' =>
       CHROM r' = CHROM r /\ POS r' = POS r
       /\ (forall k,
              k <> "primer_compliant" -> k <> "amplicon_start" ->
              k <> "amplicon_end" -> k <> "displacement" ->
              cell r' k = cell r k)
       /\ let p :=
            place primer_size amplicon_size displacement_steps
              (map POS (rows df)) (POS r) in
          cell r' "primer_compliant" = VBool (primer_compliant p)
          /\ cell r' "amplicon_start" = value_of_bound (amplicon_start p)
          /\ cell r' "amplicon_end" = value_of_bound (amplicon_end p)
          /\ cell r' "displacement" = VInt (displacement p))
    (rows df)
    (rows (fast_screen_single_chromosome primer_size amplicon_size
             displacement_steps df)).
Proof.
  unfold fast_screen_single_chromosome. cbn [rows].
  generalize (map POS (rows df)) as positions. intros positions.
  induction (rows df) as [|r rs IH]; cbn [map]; constructor; [|exact IH].
  split; [reflexivity|]. split; [reflexivity|]. split.
  - intros k H1 H2 H3 H4. unfold annotate, cell.
    rewrite !row_get_set_cell.
    repeat match goal with
           | |- context [String.eqb k ?c] =>
               destruct (String.eqb_spec k c); [contradiction|]
           end.
    reflexivity.
  - cbv zeta. apply annotate_cells.
Qed.

(** * Further properties of the chromosome fan-out *)

Lemma group_keys_empty (rs : list Row) : group_keys rs = [] <-> rs = [].
Proof.
  split.
  - intros Hkeys. destruct rs as [|r rs]; [reflexivity|].
    exfalso. revert Hkeys. now apply group_keys_nonempty.
  - now intros ->.
Qed.

(** X7. The fan-out raises exactly when it goes the pool way (several
    groups or none, and a worker count other than 1) with a worker count
    below 1 or with an empty table; the exception is then [ValueError].
    In particular the default worker count fails on a single-CPU machine
    for a table with several chromosomes. *)
Theorem parallel_raises_iff (cpu_count : Z) (df : DataFrame)
  (primer_size amplicon_size displacement_steps : Z) (n_workers : option Z) :
  let run :=
    fast_screen_variants_parallel cpu_count df primer_size amplicon_size
      displacement_steps n_workers in
  let workers := resolve_workers cpu_count n_workers in
  ((exists e, outcome run = Err e) <->
   List.length (group_keys (rows df)) <> 1%nat /\ workers <> 1
   /\ (workers < 1 \/ rows df = []))
  /\ (forall e, outcome run = Err e -> e = ValueError).
Proof.
  cbv zeta. unfold fast_screen_variants_parallel.
  assert (Hlen : List.length (chrom_groups df)
                 = List.length (group_keys (rows df)))
    by (unfold chrom_groups; apply length_map).
  rewrite Hlen.
  destruct (Nat.eqb_spec (List.length (group_keys (rows df))) 1) as [H1|H1];
    cbn [orb].
  { unfold outcome. cbn [logging ret bind snd]. split.
    - split; [intros [e He]; discriminate He | intros [Hne _]; contradiction].
    - discriminate. }
  destruct (Z.eqb_spec (resolve_workers cpu_count n_workers) 1) as [Hw|Hw].
  { unfold outcome. cbn [logging ret bind snd]. split.
    - split; [intros [e He]; discriminate He|].
      intros [_ [Hne _]]. contradiction.
    - discriminate. }
  destruct (Z.ltb_spec (resolve_workers cpu_count n_workers) 1) as [Hlt|Hge].
  { unfold outcome. cbn [logging raise bind snd]. split.
    - split; [intros _; repeat split; auto | intros _; now exists ValueError].
    - now intros e [= <-]. }
  unfold outcome. cbn [logging lift bind snd].
  destruct (rows df) as [|r rs] eqn:Hrows.
  - unfold chrom_groups. rewrite Hrows. cbn. split.
    + split; [intros _; repeat split; auto | intros _; now exists ValueError].
    + now intros e [= <-].
  - rewrite <- Hrows. rewrite concat_screened by (rewrite Hrows; discriminate).
    split.
    + split; [intros [e He]; discriminate He|].
      intros [_ [_ [Hlt|Hnil]]]; [lia | rewrite Hrows in Hnil; discriminate].
    + discriminate.
Qed.

Lemma parallel_raises_iff_witness :
  outcome (fast_screen_variants_parallel 1 two_chrom_table 20 300 5 None)
  = Err ValueError
  /\ exists out,
       outcome (fast_screen_variants_parallel 2 two_chrom_table 20 300 5 None)
       = Ok out.
Proof.
  destruct (parallel_raises_iff 1 two_chrom_table 20 300 5 None)
    as [[_ Hraise] Hkind].
  split.
  - destruct Hraise as [e He].
    + repeat split; [discriminate | discriminate | left; reflexivity].
    + rewrite He. f_equal. now apply Hkind.
  - eexists. reflexivity.
Defined.

(** * Further properties of the diagnostic filter *)

Lemma filter_filter_same {A : Type} (f : A -> bool) (l : list A) :
  filter f (filter f l) = filter f l.
Proof.
  induction l as [|x l IH]; simpl; [reflexivity|].
  destruct (f x) eqn:Hx; simpl; [now rewrite Hx, IH | exact IH].
Qed.

(** X8. Filtering a filtered table again keeps it as it is: the rule
    reads the allele columns of the table and the cells of the row, and
    both are unchanged by the filter. *)
Theorem diagnostic_filter_idempotent (df out : DataFrame)
  (target_parent : string) :
  mem_string (target_column target_parent) (columns df) = true ->
  outcome (fast_filter_diagnostic_variants df target_parent) = Ok out ->
  fast_filter_diagnostic_variants out target_parent = ([], Ok out).
Proof.
  intros Hcol. unfold fast_filter_diagnostic_variants at 1.
  rewrite target_in_allele_columns, Hcol. cbn [negb].
  unfold outcome, ret. cbn [snd]. intros [= <-].
  unfold fast_filter_diagnostic_variants.
  rewrite target_in_allele_columns. cbn [columns]. rewrite Hcol. cbn [negb].
  unfold ret, allele_columns. cbn [columns rows].
  now rewrite filter_filter_same.
Qed.

Lemma diagnostic_filter_idempotent_witness :
  mem_string (target_column "664c") (columns allele_table) = true
  /\ fast_filter_diagnostic_variants
       (mkDF (columns allele_table)
          [mkRow "1" 200 [("664c_allele", VStr "A"); ("767_allele", VStr "T")]])
       "664c"
     = ([], Ok (mkDF (columns allele_table)
                  [mkRow "1" 200
                     [("664c_allele", VStr "A"); ("767_allele", VStr "T")]])).
Proof.
  split; [reflexivity|].
  apply (diagnostic_filter_idempotent allele_table _ "664c");
    reflexivity.
Defined.

(** * Further properties of the spacing filter *)

Lemma spacing_filter_chrom (df : DataFrame) (min_spacing : Z) (c : string) :
  filter (in_chrom c) (rows (fast_apply_spacing_filter df min_spacing))
  = greedy_select min_spacing None
      (sort_by pos_le (filter (in_chrom c) (rows df))).
Proof.
  unfold fast_apply_spacing_filter, len.
  destruct (rows df) as [|r rs] eqn:Hrows.
  - cbn [List.length Nat.eqb]. now rewrite Hrows.
  - cbn [List.length Nat.eqb rows].
    now rewrite filter_sweep_chrom, filter_sort_chrom.
Qed.

(** A row that the greedy selection passes over lies less than
    [min_spacing] beyond the last selected position. *)
Lemma greedy_select_rejected (min_spacing : Z) (rs : list Row) :
  StronglySorted (fun a b => pos_le a b = true) rs ->
  forall last,
    (forall p, last = Some p -> Forall (fun r => p <= POS r) rs) ->
    forall r, In r rs ->
      In r (greedy_select min_spacing last rs)
      \/ exists p,
           (last = Some p
            \/ exists s, In s (greedy_select min_spacing last rs) /\ POS s = p)
           /\ 0 <= POS r - p < min_spacing.
Proof.
  induction 1 as [|x rs Hsorted IH Hall]; intros last Hlast r Hr;
    [contradiction|].
  assert (Hkeep :
            In r (x :: greedy_select min_spacing (Some (POS x)) rs)
            \/ exists p,
                 (last = Some p
                  \/ exists s,
                       In s (x :: greedy_select min_spacing (Some (POS x)) rs)
                       /\ POS s = p)
                 /\ 0 <= POS r - p < min_spacing).
  { destruct Hr as [<-|Hr]; [left; now left|].
    destruct (IH (Some (POS x))) with (r := r) as [Hin|[p [Hp Hclose]]];
      [ intros p [= <-]; eapply Forall_impl; [|exact Hall];
        intros a Ha; unfold pos_le in Ha; now apply Z.leb_le in Ha
      | assumption
      | left; now right
      | ].
    right. exists p. split; [|exact Hclose]. right.
    destruct Hp as [[= <-]|[s [Hs Hps]]].
    - exists x. split; [now left|reflexivity].
    - exists s. split; [now right|assumption]. }
  cbn [greedy_select].
  destruct last as [lp|]; [|exact Hkeep].
  destruct (POS x - lp >=? min_spacing) eqn:Htest; [exact Hkeep|].
  pose proof (Hlast lp eq_refl) as Hlp.
  inversion Hlp as [|? ? Hx Hrs]; subst.
  destruct Hr as [<-|Hr].
  - right. exists lp. split; [now left|].
    rewrite Z.geb_leb, Z.leb_gt in Htest. lia.
  - apply IH; [|assumption]. now intros p [= <-].
Qed.

(** X9. The selection is maximal: a row of the table that is not selected
    lies less than [min_spacing] beyond a selected row of its chromosome. *)
Theorem spacing_filter_maximal (df : DataFrame) (min_spacing : Z) (r : Row) :
  In r (rows df) ->
  In r (rows (fast_apply_spacing_filter df min_spacing))
  \/ exists s,
       In s (rows (fast_apply_spacing_filter df min_spacing))
       /\ CHROM s = CHROM r
       /\ 0 <= POS r - POS s < min_spacing.
Proof.
  intros Hr.
  assert (Hc : in_chrom (CHROM r) r = true)
    by (unfold in_chrom; apply String.eqb_refl).
  assert (Hin : In r (sort_by pos_le (filter (in_chrom (CHROM r)) (rows df))))
    by (apply sort_by_In, filter_In; now split).
  pose proof (spacing_filter_chrom df min_spacing (CHROM r)) as Hsel.
  destruct (greedy_select_rejected min_spacing _
              (sort_by_sorted pos_le pos_le_total pos_le_trans _)
              None (fun p H => ltac:(discriminate H)) r Hin)
    as [Hkept|[p [[Hp|[s [Hs Hps]]] Hclose]]].
  - left. rewrite <- Hsel in Hkept. now apply filter_In in Hkept.
  - discriminate Hp.
  - right. exists s. rewrite <- Hsel in Hs. apply filter_In in Hs.
    destruct Hs as [Hs Hcs]. unfold in_chrom in Hcs.
    apply String.eqb_eq in Hcs. subst p. repeat split; try assumption; lia.
Qed.

Lemma spacing_filter_maximal_witness :
  In (mkRow "1" 1060 [])
    (rows (mkDF [] [mkRow "1" 3000 []; mkRow "1" 1060 []; mkRow "1" 100 []]))
  /\ (In (mkRow "1" 1060 [])
        (rows (fast_apply_spacing_filter
                 (mkDF [] [mkRow "1" 3000 []; mkRow "1" 1060 [];
                           mkRow "1" 100 []]) 1000))
      \/ exists s,
           In s (rows (fast_apply_spacing_filter
                         (mkDF [] [mkRow "1" 3000 []; mkRow "1" 1060 [];
                                   mkRow "1" 100 []]) 1000))
           /\ CHROM s = CHROM (mkRow "1" 1060 [])
           /\ 0 <= POS (mkRow "1" 1060 []) - POS s < 1000).
Proof.
  assert (Hin : In (mkRow "1" 1060 [])
                  (rows (mkDF [] [mkRow "1" 3000 []; mkRow "1" 1060 [];
                                  mkRow "1" 100 []])))
    by (right; left; reflexivity).
  split; [exact Hin|].
  apply (spacing_filter_maximal _ 1000 _ Hin).
Defined.

(** On a sorted list with a non-positive spacing the sweep keeps all rows. *)
Lemma spacing_sweep_all (min_spacing : Z) (rs : list Row) :
  min_spacing <= 0 ->
  StronglySorted (fun a b => chrom_pos_le a b = true) rs ->
  forall last_pos,
    (forall r p, In r rs -> dict_get (CHROM r) last_pos = Some p ->
                 p <= POS r) ->
    spacing_sweep min_spacing last_pos rs = rs.
Proof.
  intros Hm. induction 1 as [|x rs Hsorted IH Hall]; intros last_pos Hdict;
    [reflexivity|].
  cbn [spacing_sweep].
  assert (Hselected :
            match dict_get (CHROM x) last_pos with
            | Some last => POS x - last >=? min_spacing
            | None => true
            end = true).
  { destruct (dict_get (CHROM x) last_pos) as [p|] eqn:Hget; [|reflexivity].
    rewrite Z.geb_leb. apply Z.leb_le.
    specialize (Hdict x p (or_introl eq_refl) Hget). lia. }
  rewrite Hselected. f_equal. apply IH.
  intros r p Hr. unfold dict_set. cbn [dict_get].
  destruct (String.eqb_spec (CHROM r) (CHROM x)) as [Hc|Hc].
  - intros [= <-]. rewrite Forall_forall in Hall.
    specialize (Hall r Hr). unfold chrom_pos_le in Hall.
    rewrite Hc, compare_refl in Hall. now apply Z.leb_le.
  - intros Hget. apply (Hdict r p); [now right|assumption].
Qed.

(** X10. With a spacing that is not positive the filter drops nothing: it
    returns the rows of the table sorted by chromosome and position. *)
Theorem spacing_filter_nonpositive (df : DataFrame) (min_spacing : Z) :
  min_spacing <= 0 ->
  rows (fast_apply_spacing_filter df min_spacing)
  = sort_by chrom_pos_le (rows df).
Proof.
  intros Hm. unfold fast_apply_spacing_filter, len.
  destruct (rows df) as [|r rs] eqn:Hrows.
  - cbn [List.length Nat.eqb]. now rewrite Hrows.
  - cbn [List.length Nat.eqb rows].
    apply spacing_sweep_all; [assumption| |].
    + apply sort_by_sorted;
        [apply chrom_pos_le_total | apply chrom_pos_le_trans].
    + intros x p _ Hget. discriminate Hget.
Qed.

Lemma spacing_filter_nonpositive_witness :
  0 <= 0
  /\ map POS
       (rows (fast_apply_spacing_filter
                (mkDF [] [mkRow "1" 3000 []; mkRow "1" 1060 [];
                          mkRow "1" 100 []]) 0))
     = [100; 1060; 3000].
Proof.
  split; [lia|].
  rewrite (spacing_filter_nonpositive _ 0); [reflexivity|lia].
Defined.

Lemma spacing_sweep_idempotent (min_spacing : Z) (rs : list Row) :
  forall last_pos,
    spacing_sweep min_spacing last_pos
      (spacing_sweep min_spacing last_pos rs)
    = spacing_sweep min_spacing last_pos rs.
Proof.
  induction rs as [|x rs IH]; intros last_pos; [reflexivity|].
  cbn [spacing_sweep].
  destruct (match dict_get (CHROM x) last_pos with
            | Some last => POS x - last >=? min_spacing
            | None => true
            end) eqn:Hsel.
  - cbn [spacing_sweep]. rewrite Hsel. f_equal. apply IH.
  - apply IH.
Qed.

Lemma spacing_sweep_sorted (min_spacing : Z) (rs : list Row) :
  StronglySorted (fun a b => chrom_pos_le a b = true) rs ->
  forall last_pos,
    StronglySorted (fun a b => chrom_pos_le a b = true)
      (spacing_sweep min_spacing last_pos rs).
Proof.
  induction 1 as [|x rs Hsorted IH Hall]; intros last_pos; [constructor|].
  cbn [spacing_sweep].
  destruct (match dict_get (CHROM x) last_pos with
            | Some last => POS x - last >=? min_spacing
            | None => true
            end); [|apply IH].
  constructor; [apply IH|].
  apply Forall_forall. intros r Hr. apply spacing_sweep_In in Hr.
  rewrite Forall_forall in Hall. now apply Hall.
Qed.

(** X11. The rows the filter returns come from the table and, unless the
    table is empty and returned as it is, are ordered by chromosome and
    then by position, whatever the order of the input; filtering them
    again with the same spacing returns them unchanged. *)
Theorem spacing_filter_idempotent (df : DataFrame) (min_spacing : Z) :
  let out := fast_apply_spacing_filter df min_spacing in
  (forall r, In r (rows out) -> In r (rows df))
  /\ (rows df = []
      \/ StronglySorted (fun a b => chrom_pos_le a b = true) (rows out))
  /\ fast_apply_spacing_filter out min_spacing = out.
Proof.
  cbv zeta. split; [|split].
  - intros r. revert r. apply Forall_forall.
    apply (spacing_keeps (fun r => In r (rows df))).
    now apply Forall_forall.
  - destruct (rows df) as [|r0 rs] eqn:Hrows; [now left|right].
    unfold fast_apply_spacing_filter, len. rewrite Hrows.
    cbn [List.length Nat.eqb rows].
    apply spacing_sweep_sorted, sort_by_sorted;
      [apply chrom_pos_le_total | apply chrom_pos_le_trans].
  - unfold fast_apply_spacing_filter at 1.
    destruct (len (fast_apply_spacing_filter df min_spacing) =? 0)%nat;
      [reflexivity|].
    unfold fast_apply_spacing_filter.
    destruct (len df =? 0)%nat eqn:Hlen.
    + apply len_zero in Hlen. destruct df as [cols rs]. cbn [rows] in *.
      subst rs. reflexivity.
    + cbn [rows columns]. f_equal.
      rewrite sort_by_sorted_id.
      * apply spacing_sweep_idempotent.
      * apply spacing_sweep_sorted, sort_by_sorted;
          [apply chrom_pos_le_total | apply chrom_pos_le_trans].
Qed.

(** * Further properties of the quality score *)

Lemma reliability_values_range (v : value) (n : Z) :
  reliability_values v = Some n -> n = 1 \/ n = 2 \/ n = 3.
Proof.
  unfold reliability_values. destruct v as [s| | | | |]; try discriminate.
  destruct (String.eqb s "low"); [intros [= <-]; auto|].
  destruct (String.eqb s "medium"); [intros [= <-]; auto|].
  destruct (String.eqb s "high"); [intros [= <-]; auto|].
  discriminate.
Qed.

Lemma reliability_base_range (v : value) :
  (1 <= reliability_base v <= 3)%Q.
Proof.
  unfold reliability_base.
  destruct (reliability_values v) as [n|] eqn:Hn; [|split; discriminate].
  destruct (reliability_values_range v n Hn) as [ -> | [ -> | -> ] ];
    split; discriminate.
Qed.

Lemma min_2_upper (x : Q) : (min_2 x <= 2)%Q.
Proof.
  unfold min_2. destruct (Qlt_le_dec x 2); [now apply Qlt_le_weak|].
  apply Qle_refl.
Qed.

Lemma min_2_lower (x : Q) : (0 <= x)%Q -> (0 <= min_2 x)%Q.
Proof.
  intros Hx. unfold min_2. destruct (Qlt_le_dec x 2); [assumption|].
  discriminate.
Qed.

(** X12. A score that is returned is at most 9 (3 for the tier, 2, 1, at
    most 2 for QUAL, and 1); when QUAL is missing or a number that is not
    negative, it is at least 1. *)
Theorem quality_score_bounds (row : Row) (target_parent : string) (s : Q) :
  fast_quality_score row target_parent = Ok s ->
  (s <= 9)%Q
  /\ ((forall q, as_number (row_get row "QUAL" (VInt 0)) = Some q ->
                 (0 <= q)%Q) ->
      (1 <= s)%Q).
Proof.
  unfold fast_quality_score.
  destruct (row_index row "overall_reliability") as [rel|]; [|discriminate].
  fold (reliability_base rel).
  pose proof (reliability_base_range rel) as [Hlo Hhi].
  set (base := reliability_base rel) in *. clearbody base.
  destruct (truthy (row_get row "complete_info" (VBool false)));
    destruct (truthy (row_get row "has_f2_data" (VBool false)));
    destruct (truthy (row_get row "primer_compliant" (VBool false)));
    (destruct (notna (row_get row "QUAL" (VInt 0)));
     [ destruct (row_index row "QUAL") as [qual|] eqn:Hindex; [|discriminate];
       assert (Hsame : row_get row "QUAL" (VInt 0) = qual)
         by (unfold row_index in Hindex; unfold row_get;
             destruct (lookup "QUAL" (cells row)); [congruence|discriminate]);
       rewrite Hsame; unfold div_100;
       destruct (as_number qual) as [q|]; [|discriminate];
       pose proof (min_2_upper (q / 100)) as Hmin;
       intros [= <-]; split;
       [ lra
       | intros Hq; specialize (Hq q eq_refl);
         assert (Hdiv : (0 <= q / 100)%Q)
           by (apply Qle_shift_div_l; [reflexivity|lra]);
         pose proof (min_2_lower _ Hdiv); lra ]
     | intros [= <-]; split; [lra | intros _; lra] ]).
Qed.

Lemma quality_score_bounds_witness :
  fast_quality_score scored_row "664c" = Ok (3 + 2 + 1 + (150 / 100) + 1)%Q
  /\ (3 + 2 + 1 + (150 / 100) + 1 <= 9)%Q.
Proof.
  split; [reflexivity|].
  apply (quality_score_bounds scored_row "664c"). reflexivity.
Defined.

(** X13. The scorer raises in three cases and in no other: [KeyError] for
    a row without a reliability cell, [KeyError] for a row without a QUAL
    cell (the default of [row.get] does not reach the division), and
    [TypeError] for a QUAL cell that holds text. *)
Theorem quality_score_raises_iff (row : Row) (target_parent : string)
  (e : exn) :
  fast_quality_score row target_parent = Err e <->
  (lookup "overall_reliability" (cells row) = None
   /\ e = KeyError "overall_reliability")
  \/ (lookup "overall_reliability" (cells row) <> None
      /\ lookup "QUAL" (cells row) = None /\ e = KeyError "QUAL")
  \/ (lookup "overall_reliability" (cells row) <> None
      /\ (exists t, lookup "QUAL" (cells row) = Some (VStr t))
      /\ e = TypeError).
Proof.
  unfold fast_quality_score, row_index, row_get, div_100, notna.
  destruct (lookup "overall_reliability" (cells row)) as [rel|].
  - destruct (lookup "QUAL" (cells row)) as [qual|].
    + destruct qual as [t|z|q|b| |]; cbn [isna negb as_number];
        repeat match goal with
               | |- context [if ?c then _ else _] => destruct c
               end;
        (split;
         [ first
             [ discriminate
             | intros [= <-]; right; right;
               split; [discriminate|]; split; [now exists t|reflexivity] ]
         | intros [[H _]|[[_ [H _]]|[_ [[t' H] He]]]];
           try discriminate H; try (now subst e) ]).
    + cbn [isna negb].
      repeat match goal with
             | |- context [if ?c then _ else _] => destruct c
             end;
        (split;
         [ intros [= <-]; right; left; repeat split; discriminate
         | intros [[H _]|[[_ [_ He]]|[_ [[t H] _]]]];
           [discriminate H | now subst e | discriminate H] ]).
  - split.
    + intros [= <-]. left. now split.
    + intros [[_ He]|[[H _]|[H _]]]; [now subst e | | ]; now contradiction H.
Qed.

(** * Further properties of the pipeline *)

Lemma desc_compare_trans (a b c : option Q) :
  desc_compare a b <> Gt -> desc_compare b c <> Gt ->
  desc_compare a c <> Gt
  /\ (desc_compare a b = Lt \/ desc_compare b c = Lt ->
      desc_compare a c = Lt)
  /\ (desc_compare a b = Eq -> desc_compare b c = Eq ->
      desc_compare a c = Eq).
Proof.
  destruct a as [x|], b as [y|], c as [z|]; cbn [desc_compare];
    try (intros H1 H2; repeat split; intros; try congruence;
         try (destruct H as [H|H]; congruence); fail).
  destruct (Qcompare_spec y x) as [Hyx|Hyx|Hyx];
    destruct (Qcompare_spec z y) as [Hzy|Hzy|Hzy];
    destruct (Qcompare_spec z x) as [Hzx|Hzx|Hzx];
    intros H1 H2; repeat split; intros; try congruence;
    try (exfalso; lra);
    try (destruct H as [H|H]; discriminate H).
Qed.

Lemma desc_compare_total (a b : option Q) :
  desc_compare a b = Gt -> desc_compare b a = Lt.
Proof.
  destruct a as [x|], b as [y|]; cbn [desc_compare]; try congruence.
  destruct (Qcompare_spec y x) as [H|H|H]; try discriminate.
  intros _. now apply Qlt_alt.
Qed.

Lemma score_qual_le_total (x y : Row) :
  score_qual_le x y = false -> score_qual_le y x = true.
Proof.
  unfold score_qual_le.
  destruct (desc_compare (as_number (cell x "quality_score"))
              (as_number (cell y "quality_score"))) eqn:H1;
    try discriminate.
  - destruct (desc_compare (as_number (cell x "QUAL"))
                (as_number (cell y "QUAL"))) eqn:H2; try discriminate.
    intros _. apply desc_compare_total in H2. rewrite H2.
    destruct (desc_compare (as_number (cell y "quality_score"))
                (as_number (cell x "quality_score"))) eqn:H3;
      try reflexivity.
    apply desc_compare_total in H3. congruence.
  - intros _. apply desc_compare_total in H1. now rewrite H1.
Qed.

Lemma score_qual_le_trans (x y z : Row) :
  score_qual_le x y = true -> score_qual_le y z = true ->
  score_qual_le x z = true.
Proof.
  unfold score_qual_le.
  set (sx := as_number (cell x "quality_score")).
  set (sy := as_number (cell y "quality_score")).
  set (sz := as_number (cell z "quality_score")).
  set (qx := as_number (cell x "QUAL")).
  set (qy := as_number (cell y "QUAL")).
  set (qz := as_number (cell z "QUAL")).
  intros Hxy Hyz.
  assert (H1 : desc_compare sx sy <> Gt)
    by (destruct (desc_compare sx sy); congruence).
  assert (H2 : desc_compare sy sz <> Gt)
    by (destruct (desc_compare sy sz); congruence).
  destruct (desc_compare_trans sx sy sz H1 H2) as (Hle & Hlt & Heq).
  destruct (desc_compare sx sy) eqn:E1; try discriminate;
    destruct (desc_compare sy sz) eqn:E2; try discriminate;
    try (rewrite Hlt by auto; reflexivity).
  rewrite Heq by reflexivity.
  assert (H3 : desc_compare qx qy <> Gt)
    by (destruct (desc_compare qx qy); congruence).
  assert (H4 : desc_compare qy qz <> Gt)
    by (destruct (desc_compare qy qz); congruence).
  destruct (desc_compare_trans qx qy qz H3 H4) as (Hqle & _ & _).
  destruct (desc_compare qx qz); congruence.
Qed.

Lemma firstn_sorted {A : Type} (R : A -> A -> Prop) (n : nat) (l : list A) :
  StronglySorted R l -> StronglySorted R (firstn n l).
Proof.
  intros H. revert n. induction H as [|x l Hsorted IH Hall]; intros n.
  - rewrite firstn_nil. constructor.
  - destruct n as [|n]; cbn [firstn]; constructor; [apply IH|].
    apply Forall_forall. intros y Hy.
    rewrite Forall_forall in Hall. apply Hall.
    rewrite <- (firstn_skipn n l). apply in_or_app. now left.
Qed.

(** What a run of the ranking stage returns. *)
Lemma rank_and_select_ok (spaced out : DataFrame) (target_parent : string)
  (max_snps : Z) :
  outcome (rank_and_select spaced target_parent max_snps) = Ok out ->
  exists scored,
    score_rows (columns spaced) target_parent (rows spaced) = Ok scored
    /\ rows out
       = if Z.of_nat (List.length (sort_by score_qual_le scored)) >? max_snps
         then head max_snps (sort_by score_qual_le scored)
         else sort_by score_qual_le scored.
Proof.
  intros Hout. unfold rank_and_select in Hout.
  apply bind_ok in Hout. destruct Hout as [scored [Hscored Hout]].
  apply bind_ok in Hout. destruct Hout as [_ [_ Hout]].
  unfold outcome, lift in Hscored. cbn [snd] in Hscored.
  exists scored. split; [assumption|].
  destruct (Z.of_nat _ >? max_snps);
    unfold outcome in Hout; cbn [logging ret bind snd] in Hout;
    now injection Hout as <-.
Qed.

(** A run of the pipeline that returns has stopped early with the empty
    table or has ranked the outcome of the spacing filter. *)
Lemma pipeline_outcome_cases (cpu_count : Z) (df out : DataFrame)
  (target_parent min_reliability : string) (min_spacing max_snps : Z)
  (primer_size amplicon_size displacement_steps : Z) (n_workers : option Z) :
  outcome
    (fast_comprehensive_screen cpu_count df target_parent min_reliability
       min_spacing max_snps primer_size amplicon_size displacement_steps
       n_workers) = Ok out ->
  out = empty_frame
  \/ exists spaced,
       outcome (rank_and_select spaced target_parent max_snps) = Ok out.
Proof.
  intros Hout. unfold fast_comprehensive_screen in Hout.
  apply bind_ok in Hout. destruct Hout as [_ [_ Hout]].
  apply bind_ok in Hout. destruct Hout as [v [_ Hout]].
  apply bind_ok in Hout. destruct Hout as [filtered [_ Hout]].
  apply bind_ok in Hout. destruct Hout as [_ [_ Hout]].
  destruct (len filtered =? 0)%nat.
  { left. unfold outcome, ret in Hout. cbn [snd] in Hout. congruence. }
  apply bind_ok in Hout. destruct Hout as [diagnostic [_ Hout]].
  apply bind_ok in Hout. destruct Hout as [_ [_ Hout]].
  destruct (len diagnostic =? 0)%nat.
  { left. unfold outcome, ret in Hout. cbn [snd] in Hout. congruence. }
  apply bind_ok in Hout. destruct Hout as [screened [_ Hout]].
  apply bind_ok in Hout. destruct Hout as [_ [_ Hout]].
  apply bind_ok in Hout. destruct Hout as [carried [_ Hout]].
  unfold space_and_rank in Hout.
  apply bind_ok in Hout. destruct Hout as [_ [_ Hout]].
  destruct (len _ =? 0)%nat.
  { left. unfold outcome, ret in Hout. cbn [snd] in Hout. congruence. }
  right. eexists. exact Hout.
Qed.

(** X14. The table that the pipeline returns is ranked: its rows are in
    descending order of quality score and, among equal scores, of QUAL,
    rows without a QUAL number last; and for a [max_snps] that is not
    negative it has at most [max_snps] rows. *)
Theorem pipeline_ranked_and_bounded (cpu_count : Z) (df out : DataFrame)
  (target_parent min_reliability : string) (min_spacing max_snps : Z)
  (primer_size amplicon_size displacement_steps : Z) (n_workers : option Z) :
  outcome
    (fast_comprehensive_screen cpu_count df target_parent min_reliability
       min_spacing max_snps primer_size amplicon_size displacement_steps
       n_workers) = Ok out ->
  StronglySorted (fun a b => score_qual_le a b = true) (rows out)
  /\ (0 <= max_snps -> Z.of_nat (List.length (rows out)) <= max_snps).
Proof.
  intros Hout. apply pipeline_outcome_cases in Hout.
  destruct Hout as [->|[spaced Hout]].
  { split; [constructor | cbn; lia]. }
  apply rank_and_select_ok in Hout. destruct Hout as [scored [_ Hrows]].
  rewrite Hrows.
  assert (Hsorted : StronglySorted (fun a b => score_qual_le a b = true)
                      (sort_by score_qual_le scored))
    by (apply sort_by_sorted;
        [apply score_qual_le_total | apply score_qual_le_trans]).
  destruct (Z.gtb_spec (Z.of_nat (List.length (sort_by score_qual_le scored)))
              max_snps) as [Hgt|Hle].
  - unfold head. split.
    + destruct (0 <=? max_snps); now apply firstn_sorted.
    + intros Hmax. replace (0 <=? max_snps) with true
        by (symmetry; apply Z.leb_le; lia).
      pose proof (firstn_le_length (Z.to_nat max_snps)
                    (sort_by score_qual_le scored)).
      rewrite length_firstn. lia.
  - split; [assumption | intros _; lia].
Qed.

Lemma pipeline_ranked_and_bounded_witness :
  exists out,
    outcome
      (fast_comprehensive_screen 8 crowded_table "664c" "medium" 0 1 20 300 5
         None) = Ok out
    /\ map POS (rows out) = [1140]
    /\ Z.of_nat (List.length (rows out)) <= 1.
Proof.
  eexists. split; [reflexivity|]. split; [reflexivity|].
  refine (proj2 (pipeline_ranked_and_bounded 8 crowded_table _ "664c"
                   "medium" 0 1 20 300 5 None eq_refl) _).
  lia.
Defined.

Section Provenance.

Variable keeps : Row -> Prop.
Hypothesis keeps_set_cell :
  forall k v r, k <> "overall_reliability" -> keeps r -> keeps (set_cell k v r).

(** A property that holds of the diagnostic rows and survives the writing
    of cells holds of every row the pipeline returns. *)
Lemma pipeline_keeps_diagnostic (cpu_count : Z) (df out : DataFrame)
  (target_parent min_reliability : string) (min_spacing max_snps : Z)
  (primer_size amplicon_size displacement_steps : Z) (n_workers : option Z) :
  (forall v filtered diagnostic,
      reliability_index min_reliability = Ok v ->
      quality_filter v df = Ok filtered ->
      outcome (fast_filter_diagnostic_variants filtered target_parent)
      = Ok diagnostic ->
      Forall keeps (rows diagnostic)) ->
  outcome
    (fast_comprehensive_screen cpu_count df target_parent min_reliability
       min_spacing max_snps primer_size amplicon_size displacement_steps
       n_workers) = Ok out ->
  Forall keeps (rows out).
Proof.
  intros Hstage Hout. unfold fast_comprehensive_screen in Hout.
  apply bind_ok in Hout. destruct Hout as [_ [_ Hout]].
  apply bind_ok in Hout. destruct Hout as [v [Hrel Hout]].
  apply bind_ok in Hout. destruct Hout as [filtered [Hfiltered Hout]].
  apply bind_ok in Hout. destruct Hout as [_ [_ Hout]].
  unfold outcome, lift in Hrel, Hfiltered. cbn [snd] in Hrel, Hfiltered.
  destruct (len filtered =? 0)%nat.
  { unfold outcome, ret in Hout. cbn [snd] in Hout.
    injection Hout as <-. constructor. }
  apply bind_ok in Hout. destruct Hout as [diagnostic [Hdiag Hout]].
  apply bind_ok in Hout. destruct Hout as [_ [_ Hout]].
  pose proof (Hstage v filtered diagnostic Hrel Hfiltered Hdiag) as Hd.
  destruct (len diagnostic =? 0)%nat.
  { unfold outcome, ret in Hout. cbn [snd] in Hout.
    injection Hout as <-. constructor. }
  apply bind_ok in Hout. destruct Hout as [screened [Hscreened Hout]].
  apply bind_ok in Hout. destruct Hout as [_ [_ Hout]].
  apply bind_ok in Hout. destruct Hout as [carried [Hcarried Hout]].
  pose proof (parallel_keeps keeps keeps_set_cell _ _ _ _ _ _ _ Hd Hscreened)
    as Hs.
  eapply (space_and_rank_keeps keeps keeps_set_cell); [|exact Hout].
  destruct (len (compliant_rows screened) =? 0)%nat;
    unfold outcome in Hcarried; cbn [logging ret bind snd] in Hcarried;
    injection Hcarried as <-; [assumption|].
  unfold compliant_rows. cbn [rows]. now apply Forall_filter.
Qed.

End Provenance.

(** X15. The pipeline invents no variant: every row it returns has the
    chromosome and position of a row of the input that passes the quality
    gate at the given threshold and is diagnostic for the target sample
    (target allele called, every other allele called and different). *)
Theorem pipeline_rows_from_input (cpu_count : Z) (df out : DataFrame)
  (target_parent min_reliability : string) (min_spacing max_snps : Z)
  (primer_size amplicon_size displacement_steps : Z) (n_workers : option Z)
  (r : Row) :
  outcome
    (fast_comprehensive_screen cpu_count df target_parent min_reliability
       min_spacing max_snps primer_size amplicon_size displacement_steps
       n_workers) = Ok out ->
  In r (rows out) ->
  exists v r0,
    reliability_index min_reliability = Ok v
    /\ In r0 (rows df)
    /\ quality_mask v r0 = true
    /\ called_and_distinct df (target_column target_parent) r0 = true
    /\ CHROM r = CHROM r0 /\ POS r = POS r0.
Proof.
  intros Hout Hr. revert r Hr. apply Forall_forall.
  eapply pipeline_keeps_diagnostic; [| |exact Hout].
  - intros k v r _ (v0 & r0 & H). exists v0, r0. exact H.
  - intros v filtered diagnostic Hrel Hfiltered Hdiag.
    apply quality_filter_ok in Hfiltered. subst filtered.
    unfold fast_filter_diagnostic_variants in Hdiag.
    destruct (negb _); unfold outcome in Hdiag;
      cbn [logging ret bind snd] in Hdiag; injection Hdiag as <-;
      cbn [rows empty_frame]; [constructor|].
    apply Forall_forall. intros r Hr.
    apply filter_In in Hr. destruct Hr as [Hr Hdiagnostic].
    cbn [rows] in Hr. apply filter_In in Hr. destruct Hr as [Hr Hmask].
    exists v, r. repeat split; try assumption.
    rewrite <- Hdiagnostic. symmetry.
    apply (is_diagnostic_called_and_distinct
             (mkDF (columns df) (filter (quality_mask v) (rows df)))).
Qed.

Lemma pipeline_rows_from_input_witness :
  exists out r,
    outcome
      (fast_comprehensive_screen 8 crowded_table "664c" "medium" 2000 50 20
         300 5 None) = Ok out
    /\ In r (rows out)
    /\ exists v r0,
         reliability_index "medium" = Ok v
         /\ In r0 (rows crowded_table)
         /\ quality_mask v r0 = true
         /\ called_and_distinct crowded_table (target_column "664c") r0 = true
         /\ CHROM r = CHROM r0 /\ POS r = POS r0.
Proof.
  eexists. eexists. split; [reflexivity|]. split; [left; reflexivity|].
  eapply (pipeline_rows_from_input 8 crowded_table _ "664c" "medium" 2000 50
            20 300 5 None).
  - reflexivity.
  - left. reflexivity.
Defined.

Lemma bind_lift_err {A B : Type} (e : exn) (f : A -> M B) :
  bind (lift (Err e)) f = ([], Err e).
Proof. reflexivity. Qed.

(** X16. Errors of configuration surface before any row is looked at,
    with the starting record as the only log: a threshold that is not one
    of the three tiers raises [KeyError] with the threshold, and a table
    that lacks a gate column raises [KeyError] with the first missing one
    in the order [complete_info], [overall_reliability], [has_f2_data]. *)
Theorem pipeline_configuration_errors (cpu_count : Z) (df : DataFrame)
  (target_parent min_reliability : string) (min_spacing max_snps : Z)
  (primer_size amplicon_size displacement_steps : Z) (n_workers : option Z) :
  let run :=
    fast_comprehensive_screen cpu_count df target_parent min_reliability
      min_spacing max_snps primer_size amplicon_size displacement_steps
      n_workers in
  let start := [(INFO, StartingScreening (len df))] in
  (reliability_values (VStr min_reliability) = None ->
   run = (start, Err (KeyError min_reliability)))
  /\ (reliability_values (VStr min_reliability) <> None ->
      (mem_string "complete_info" (columns df) = false ->
       run = (start, Err (KeyError "complete_info")))
      /\ (mem_string "complete_info" (columns df) = true ->
          mem_string "overall_reliability" (columns df) = false ->
          run = (start, Err (KeyError "overall_reliability")))
      /\ (mem_string "complete_info" (columns df) = true ->
          mem_string "overall_reliability" (columns df) = true ->
          mem_string "has_f2_data" (columns df) = false ->
          run = (start, Err (KeyError "has_f2_data")))).
Proof.
  cbv zeta. unfold fast_comprehensive_screen, reliability_index.
  split.
  - intros ->. now rewrite bind_lift_err.
  - intros Hvalid.
    destruct (reliability_values (VStr min_reliability)) as [v|];
      [|contradiction]. clear Hvalid.
    rewrite bind_lift_ok. unfold quality_filter, require_column.
    repeat split.
    + intros ->. now rewrite bind_lift_err.
    + intros -> ->. now rewrite bind_lift_err.
    + intros -> -> ->. now rewrite bind_lift_err.
Qed.

Lemma pipeline_configuration_errors_witness :
  fast_comprehensive_screen 8 crowded_table "664c" "best" 2000 50 20 300 5
    None
  = ([(INFO, StartingScreening 2)], Err (KeyError "best"))
  /\ fast_comprehensive_screen 8 two_chrom_table "664c" "medium" 2000 50 20
       300 5 None
     = ([(INFO, StartingScreening 2)], Err (KeyError "complete_info")).
Proof.
  split.
  - apply (pipeline_configuration_errors 8 crowded_table "664c" "best" 2000
             50 20 300 5 None).
    reflexivity.
  - apply (pipeline_configuration_errors 8 two_chrom_table "664c" "medium"
             2000 50 20 300 5 None).
    + discriminate.
    + reflexivity.
Defined.

(** * The fan-out loses no variant *)

Lemma filter_partition_perm {A : Type} (f : A -> bool) (l : list A) :
  Permutation (filter f l ++ filter (fun x => negb (f x)) l) l.
Proof.
  induction l as [|x l IH]; simpl; [constructor|].
  destruct (f x); simpl.
  - now constructor.
  - symmetry. apply Permutation_cons_app. now symmetry.
Qed.

Lemma filter_other_chrom (c k : string) (rs : list Row) :
  c <> k ->
  filter (in_chrom c) (filter (fun r => negb (in_chrom k r)) rs)
  = filter (in_chrom c) rs.
Proof.
  intros Hne. induction rs as [|r rs IH]; simpl; [reflexivity|].
  destruct (in_chrom k r) eqn:Hk; simpl.
  - unfold in_chrom in *. apply String.eqb_eq in Hk.
    destruct (String.eqb_spec (CHROM r) c); [congruence|exact IH].
  - destruct (in_chrom c r); [now rewrite IH|exact IH].
Qed.

Lemma flat_map_pointwise {A B : Type} (f g : A -> list B) (l : list A) :
  (forall x, In x l -> f x = g x) -> flat_map f l = flat_map g l.
Proof.
  induction l as [|x l IH]; intros H; simpl; [reflexivity|].
  rewrite (H x (or_introl eq_refl)). f_equal.
  apply IH. intros y Hy. apply H. now right.
Qed.

(** Distinct labels that cover the rows cut them into groups that make up
    the rows again. *)
Lemma groups_partition (keys : list string) :
  NoDup keys ->
  forall rs,
    (forall r, In r rs -> In (CHROM r) keys) ->
    Permutation (flat_map (fun c => filter (in_chrom c) rs) keys) rs.
Proof.
  induction 1 as [|k keys Hk Hnodup IH]; intros rs Hcover.
  - destruct rs as [|r rs]; [constructor|].
    destruct (Hcover r (or_introl eq_refl)).
  - cbn [flat_map].
    apply Permutation_trans
      with (filter (in_chrom k) rs
            ++ filter (fun r => negb (in_chrom k r)) rs);
      [|apply filter_partition_perm].
    apply Permutation_app_head.
    rewrite <- (IH (filter (fun r => negb (in_chrom k r)) rs)).
    + apply Permutation_refl'. apply flat_map_pointwise. intros c Hc.
      symmetry. apply filter_other_chrom. intros ->. contradiction.
    + intros r Hr. apply filter_In in Hr. destruct Hr as [Hr Hnot].
      destruct (Hcover r Hr) as [Heq|Hin]; [|assumption].
      unfold in_chrom in Hnot. rewrite <- Heq, String.eqb_refl in Hnot.
      discriminate Hnot.
Qed.

Lemma group_keys_NoDup (rs : list Row) : NoDup (group_keys rs).
Proof.
  unfold group_keys, sort_keys.
  apply (Permutation_NoDup (sort_by_perm String.leb _)).
  apply NoDup_nodup.
Qed.

(** X17. The fan-out neither loses nor repeats a variant: whenever it
    returns, the chromosome and position pairs of its rows are those of
    the input rows, up to the order of the rows. *)
Theorem parallel_keeps_variants (cpu_count : Z) (df out : DataFrame)
  (primer_size amplicon_size displacement_steps : Z) (n_workers : option Z) :
  outcome
    (fast_screen_variants_parallel cpu_count df primer_size amplicon_size
       displacement_steps n_workers) = Ok out ->
  Permutation (map (fun r => (CHROM r, POS r)) (rows out))
    (map (fun r => (CHROM r, POS r)) (rows df)).
Proof.
  assert (Hscreen : forall g,
             map (fun r => (CHROM r, POS r))
               (rows (fast_screen_single_chromosome primer_size amplicon_size
                        displacement_steps g))
             = map (fun r => (CHROM r, POS r)) (rows g)).
  { intros g. unfold fast_screen_single_chromosome. cbn [rows].
    rewrite map_map. apply map_ext. reflexivity. }
  assert (Hgroups : forall keys,
             map (fun r => (CHROM r, POS r))
               (flat_map
                  (fun c =>
                     rows (fast_screen_single_chromosome primer_size
                             amplicon_size displacement_steps
                             (mkDF (columns df)
                                (filter (in_chrom c) (rows df)))))
                  keys)
             = map (fun r => (CHROM r, POS r))
                 (flat_map (fun c => filter (in_chrom c) (rows df)) keys)).
  { induction keys as [|c keys IH]; [reflexivity|].
    cbn [flat_map]. rewrite !map_app, IH. f_equal.
    now rewrite Hscreen. }
  unfold fast_screen_variants_parallel.
  destruct ((List.length (chrom_groups df) =? 1)%nat
            || (resolve_workers cpu_count n_workers =? 1)).
  - unfold outcome. cbn [logging ret bind snd]. intros [= <-].
    now rewrite Hscreen.
  - destruct (resolve_workers cpu_count n_workers <? 1).
    + unfold outcome. cbn [logging raise bind snd]. discriminate.
    + unfold outcome. cbn [logging lift bind snd].
      destruct (rows df) as [|r0 rs] eqn:Hrows.
      * unfold chrom_groups. rewrite Hrows. cbn. discriminate.
      * rewrite <- Hrows in Hgroups |- *.
        rewrite concat_screened by (rewrite Hrows; discriminate).
        intros [= <-]. unfold screen_partitions. cbn [rows].
        apply Permutation_trans
          with (map (fun r => (CHROM r, POS r))
                  (flat_map (fun c => filter (in_chrom c) (rows df))
                     (group_keys (rows df)))).
        -- apply Permutation_refl'. apply Hgroups.
        -- apply Permutation_map, groups_partition;
             [apply group_keys_NoDup|].
           intros r Hr. apply group_keys_In. now exists r.
Qed.

Lemma parallel_keeps_variants_witness :
  exists out,
    outcome (fast_screen_variants_parallel 8 two_chrom_table 20 300 5 (Some 2))
    = Ok out
    /\ map (fun r => (CHROM r, POS r)) (rows out) = [("1", 1000); ("2", 1140)]
    /\ Permutation (map (fun r => (CHROM r, POS r)) (rows out))
         (map (fun r => (CHROM r, POS r)) (rows two_chrom_table)).
Proof.
  eexists. split; [reflexivity|]. split; [reflexivity|].
  apply (parallel_keeps_variants 8 two_chrom_table _ 20 300 5 (Some 2)).
  reflexivity.
Defined.

(** * Compliance of the returned rows *)

Lemma bind_ok_logs {A B : Type} (m : M A) (f : A -> M B) (b : B) :
  outcome (bind m f) = Ok b ->
  exists a,
    outcome m = Ok a /\ outcome (f a) = Ok b
    /\ logs (bind m f) = logs m ++ logs (f a).
Proof.
  unfold outcome, logs, bind. destruct m as [l1 [a|e]]; [|discriminate].
  destruct (f a) as [l2 r] eqn:Hf. cbn [fst snd]. intros ->.
  exists a. now rewrite Hf.
Qed.

Lemma score_rows_In (cols : list string) (target_parent : string)
  (rs : list Row) :
  forall scored,
    score_rows cols target_parent rs = Ok scored ->
    forall r', In r' scored ->
      exists r s, In r rs /\ r' = set_cell "quality_score" (VFloat s) r.
Proof.
  induction rs as [|r rs IH]; intros scored; cbn [score_rows].
  - intros [= <-] r' [].
  - destruct (fast_quality_score _ _) as [s|]; [|discriminate].
    destruct (score_rows cols target_parent rs) as [rest|]; [|discriminate].
    intros [= <-] r' [<-|Hr'].
    + exists r, s. split; [now left|reflexivity].
    + destruct (IH rest eq_refl r' Hr') as (r1 & s1 & Hin & Heq).
      exists r1, s1. split; [now right|assumption].
Qed.

(** The rows of a ranked table are rows of the spaced table with their
    score written. *)
Lemma rank_and_select_In (spaced out : DataFrame) (target_parent : string)
  (max_snps : Z) (r' : Row) :
  outcome (rank_and_select spaced target_parent max_snps) = Ok out ->
  In r' (rows out) ->
  exists r s, In r (rows spaced) /\ r' = set_cell "quality_score" (VFloat s) r.
Proof.
  intros Hout Hr'. apply rank_and_select_ok in Hout.
  destruct Hout as [scored [Hscored Hrows]]. rewrite Hrows in Hr'.
  apply (score_rows_In _ _ _ _ Hscored).
  destruct (Z.of_nat _ >? max_snps).
  - now apply head_In, sort_by_In in Hr'.
  - now apply sort_by_In in Hr'.
Qed.

(** The rows the fan-out returns are annotated rows. *)
Lemma parallel_rows_annotated (cpu_count : Z) (df screened : DataFrame)
  (primer_size amplicon_size displacement_steps : Z) (n_workers : option Z)
  (r : Row) :
  outcome
    (fast_screen_variants_parallel cpu_count df primer_size amplicon_size
       displacement_steps n_workers) = Ok screened ->
  In r (rows screened) ->
  exists p r0, r = annotate p r0.
Proof.
  assert (Hscreen : forall g,
             In r (rows (fast_screen_single_chromosome primer_size
                           amplicon_size displacement_steps g)) ->
             exists p r0, r = annotate p r0).
  { intros g Hr. unfold fast_screen_single_chromosome in Hr. cbn [rows] in Hr.
    apply in_map_iff in Hr. destruct Hr as [r0 [<- _]]. eauto. }
  unfold fast_screen_variants_parallel.
  destruct ((List.length (chrom_groups df) =? 1)%nat
            || (resolve_workers cpu_count n_workers =? 1)).
  - unfold outcome. cbn [logging ret bind snd]. intros [= <-]. apply Hscreen.
  - destruct (resolve_workers cpu_count n_workers <? 1).
    + unfold outcome. cbn [logging raise bind snd]. discriminate.
    + unfold outcome. cbn [logging lift bind snd]. unfold concat.
      destruct (map _ (chrom_groups df)) as [|first rest] eqn:Hresults;
        [discriminate|].
      intros [= <-]. cbn [rows].
      change (rows first ++ flat_map rows rest)
        with (flat_map rows (first :: rest)).
      rewrite <- Hresults. intros Hr.
      apply in_flat_map in Hr. destruct Hr as [res [Hres Hr]].
      apply in_map_iff in Hres. destruct Hres as [g [<- _]].
      now apply (Hscreen g).
Qed.

(** X18. Unless the run logs the warning of the fallback, every row the
    pipeline returns was found primer compliant by the screening of this
    run: its [primer_compliant] cell holds [True]. *)
Theorem pipeline_compliant_unless_warned (cpu_count : Z) (df out : DataFrame)
  (target_parent min_reliability : string) (min_spacing max_snps : Z)
  (primer_size amplicon_size displacement_steps : Z) (n_workers : option Z)
  (r : Row) :
  let run :=
    fast_comprehensive_screen cpu_count df target_parent min_reliability
      min_spacing max_snps primer_size amplicon_size displacement_steps
      n_workers in
  outcome run = Ok out ->
  ~ In (WARNING, NoPrimerCompliantVariants) (logs run) ->
  In r (rows out) ->
  cell r "primer_compliant" = VBool true.
Proof.
  cbv zeta. intros Hout Hquiet Hr.
  unfold fast_comprehensive_screen in Hout, Hquiet.
  repeat match type of Hout with
         | outcome (bind (logging _ _) _) = Ok _ =>
             apply bind_ok_logs in Hout;
             destruct Hout as [_ [_ [Hout Hlogs]]];
             rewrite Hlogs in Hquiet; clear Hlogs;
             rewrite in_app_iff in Hquiet;
             apply Decidable.not_or in Hquiet;
             destruct Hquiet as [_ Hquiet]
         | outcome (bind (lift _) _) = Ok _ =>
             apply bind_ok_logs in Hout;
             destruct Hout as [? [_ [Hout Hlogs]]];
             rewrite Hlogs in Hquiet; clear Hlogs;
             rewrite in_app_iff in Hquiet;
             apply Decidable.not_or in Hquiet;
             destruct Hquiet as [_ Hquiet]
         end.
  destruct (len _ =? 0)%nat.
  { unfold outcome, ret in Hout. cbn [snd] in Hout.
    injection Hout as <-. destruct Hr. }
  apply bind_ok_logs in Hout. destruct Hout as [diagnostic [_ [Hout Hlogs]]].
  rewrite Hlogs in Hquiet. clear Hlogs. rewrite in_app_iff in Hquiet.
  apply Decidable.not_or in Hquiet. destruct Hquiet as [_ Hquiet].
  apply bind_ok_logs in Hout. destruct Hout as [_ [_ [Hout Hlogs]]].
  rewrite Hlogs in Hquiet. clear Hlogs. rewrite in_app_iff in Hquiet.
  apply Decidable.not_or in Hquiet. destruct Hquiet as [_ Hquiet].
  destruct (len diagnostic =? 0)%nat.
  { unfold outcome, ret in Hout. cbn [snd] in Hout.
    injection Hout as <-. destruct Hr. }
  apply bind_ok_logs in Hout.
  destruct Hout as [screened [Hscreened [Hout Hlogs]]].
  rewrite Hlogs in Hquiet. clear Hlogs. rewrite in_app_iff in Hquiet.
  apply Decidable.not_or in Hquiet. destruct Hquiet as [_ Hquiet].
  apply bind_ok_logs in Hout. destruct Hout as [_ [_ [Hout Hlogs]]].
  rewrite Hlogs in Hquiet. clear Hlogs. rewrite in_app_iff in Hquiet.
  apply Decidable.not_or in Hquiet. destruct Hquiet as [_ Hquiet].
  apply bind_ok_logs in Hout.
  destruct Hout as [carried [Hcarried [Hout Hlogs]]].
  rewrite Hlogs in Hquiet. clear Hlogs. rewrite in_app_iff in Hquiet.
  apply Decidable.not_or in Hquiet. destruct Hquiet as [Hquiet _].
  destruct (len (compliant_rows screened) =? 0)%nat.
  { exfalso. apply Hquiet. left. reflexivity. }
  unfold outcome, ret in Hcarried. cbn [snd] in Hcarried.
  injection Hcarried as <-.
  unfold space_and_rank in Hout.
  apply bind_ok in Hout. destruct Hout as [_ [_ Hout]].
  destruct (len _ =? 0)%nat.
  { unfold outcome, ret in Hout. cbn [snd] in Hout.
    injection Hout as <-. destruct Hr. }
  destruct (rank_and_select_In _ _ _ _ _ Hout Hr) as (r1 & s & Hr1 & ->).
  clear Hr Hout. revert r1 Hr1. apply Forall_forall.
  apply (spacing_keeps
           (fun r1 =>
              cell (set_cell "quality_score" (VFloat s) r1) "primer_compliant"
              = VBool true)).
  apply Forall_forall. intros r1 Hr1.
  unfold compliant_rows in Hr1. cbn [rows] in Hr1.
  apply filter_In in Hr1. destruct Hr1 as [Hr1 Htrue].
  destruct (parallel_rows_annotated _ _ _ _ _ _ _ _ Hscreened Hr1)
    as (p & r0 & ->).
  unfold cell. rewrite row_get_set_cell. cbn [String.eqb].
  change (row_get (annotate p r0) "primer_compliant" VNaN)
    with (cell (annotate p r0) "primer_compliant") in *.
  destruct (annotate_cells p r0) as [Hcell _]. rewrite Hcell in *.
  destruct (primer_compliant p); [reflexivity|discriminate Htrue].
Qed.

Lemma pipeline_compliant_unless_warned_witness :
  exists out r,
    outcome
      (fast_comprehensive_screen 8 spread_table "664c" "medium" 2000 50 20
         300 5 None) = Ok out
    /\ ~ In (WARNING, NoPrimerCompliantVariants)
          (logs
             (fast_comprehensive_screen 8 spread_table "664c" "medium" 2000
                50 20 300 5 None))
    /\ In r (rows out)
    /\ cell r "primer_compliant" = VBool true.
Proof.
  assert (Hquiet :
            ~ In (WARNING, NoPrimerCompliantVariants)
                (logs
                   (fast_comprehensive_screen 8 spread_table "664c" "medium"
                      2000 50 20 300 5 None))).
  { intros H. vm_compute in H.
    repeat (destruct H as [H|H]; [discriminate H|]). exact H. }
  eexists. eexists. split; [reflexivity|]. split; [exact Hquiet|].
  split; [left; reflexivity|].
  eapply (pipeline_compliant_unless_warned 8 spread_table _ "664c" "medium"
            2000 50 20 300 5 None).
  - reflexivity.
  - exact Hquiet.
  - left. reflexivity.
Defined.
